(** * Sketch-RNN-GAN: the training orchestration of [model.py]

    A shallow embedding of [Model.get_ground_truth],
    [Model.compute_bivariate_normal_pdf], [Model.compute_reconstruction_loss]
    and [Model.train], and the properties of them that the specification
    states.

    Tensor entries are 32-bit floats in the program.  They are idealised here
    as real numbers; an operation applied outside its mathematical domain
    (a division by zero, the square root of a negative number, the logarithm
    of a non-positive number) has no real value, where the tensor library
    silently produces [inf] or [nan].  Such an entry is [None], and [None]
    propagates through every later operation, as [nan] does.  Rounding,
    overflow and underflow are outside this idealisation; where a property
    turns on them, the operations of line 48 are computed in binary32
    ([Float32]). *)

From Stdlib Require Import Reals Lra Lia List Arith Bool PeanoNat.
From Stdlib Require SpecFloat.
Import ListNotations.

Set Implicit Arguments.

(** ** Scalars *)

Module Scalar.

Definition scalar : Type := option R.

Definition const (r : R) : scalar := Some r.

Definition lift1 (f : R -> R) (x : scalar) : scalar :=
  match x with
  | Some a => Some (f a)
  | None => None
  end.

Definition lift2 (f : R -> R -> R) (x y : scalar) : scalar :=
  match x, y with
  | Some a, Some b => Some (f a b)
  | _, _ => None
  end.

Definition add : scalar -> scalar -> scalar := lift2 Rplus.
Definition sub : scalar -> scalar -> scalar := lift2 Rminus.
Definition mul : scalar -> scalar -> scalar := lift2 Rmult.
Definition neg : scalar -> scalar := lift1 Ropp.
Definition exp : scalar -> scalar := lift1 Rtrigo_def.exp.
Definition pow (x : scalar) (n : nat) : scalar := lift1 (fun a => (a ^ n)%R) x.

Definition div (x y : scalar) : scalar :=
  match x, y with
  | Some a, Some b => if Req_dec_T b 0 then None else Some (a / b)%R
  | _, _ => None
  end.

Definition sqrt (x : scalar) : scalar :=
  match x with
  | Some a => if Rlt_dec a 0 then None else Some (R_sqrt.sqrt a)
  | None => None
  end.

Definition log (x : scalar) : scalar :=
  match x with
  | Some a => if Rlt_dec 0 a then Some (ln a) else None
  | None => None
  end.

(** [sum n f] is [f 0 + f 1 + ... + f (n - 1)]. *)
Fixpoint sum (n : nat) (f : nat -> scalar) : scalar :=
  match n with
  | O => const 0
  | S m => add (sum m f) (f m)
  end.

End Scalar.

Import Scalar.

(** ** Exceptions *)

Inductive exn : Type :=
| RuntimeError
| IndexError.

Inductive result (A : Type) : Type :=
| Ok (a : A)
| Raise (e : exn).

Arguments Raise {A} e.

Definition bind {A B : Type} (m : result A) (k : A -> result B) : result B :=
  match m with
  | Ok a => k a
  | Raise e => Raise e
  end.

Notation "x <- m ;; k" := (bind m (fun x => k))
  (at level 61, m at next level, right associativity).
Notation "' pat <- m ;; k" := (bind m (fun x => match x with pat => k end))
  (at level 61, pat pattern, m at next level, right associativity).

(** ** Tensors

    A dense tensor is its shape and its entries.  Entries at indices outside
    the shape are never read by a result inside the shape. *)

Record Tensor1 : Type := mkT1 { len1 : nat; at1 : nat -> scalar }.
Record Tensor2 : Type := mkT2 { rows2 : nat; cols2 : nat; at2 : nat -> nat -> scalar }.
Record Tensor3 : Type :=
  mkT3 { dim0 : nat; dim1 : nat; dim2 : nat; at3 : nat -> nat -> nat -> scalar }.

Module Torch.

(** Broadcasting of two sizes of one dimension: equal, or one of them 1. *)
Definition broadcast_dim (a b : nat) : result nat :=
  if a =? b then Ok a
  else if a =? 1 then Ok b
  else if b =? 1 then Ok a
  else Raise RuntimeError.

(** The index read in an operand whose size in that dimension is [d]. *)
Definition bidx (d i : nat) : nat := if d =? 1 then 0 else i.

Definition ew1 (f : scalar -> scalar -> scalar) (x y : Tensor1) : result Tensor1 :=
  n <- broadcast_dim (len1 x) (len1 y) ;;
  Ok (mkT1 n (fun i => f (at1 x (bidx (len1 x) i)) (at1 y (bidx (len1 y) i)))).

Definition ew2 (f : scalar -> scalar -> scalar) (x y : Tensor2) : result Tensor2 :=
  r <- broadcast_dim (rows2 x) (rows2 y) ;;
  c <- broadcast_dim (cols2 x) (cols2 y) ;;
  Ok (mkT2 r c (fun i j =>
        f (at2 x (bidx (rows2 x) i) (bidx (cols2 x) j))
          (at2 y (bidx (rows2 y) i) (bidx (cols2 y) j)))).

Definition ew3 (f : scalar -> scalar -> scalar) (x y : Tensor3) : result Tensor3 :=
  a <- broadcast_dim (dim0 x) (dim0 y) ;;
  b <- broadcast_dim (dim1 x) (dim1 y) ;;
  c <- broadcast_dim (dim2 x) (dim2 y) ;;
  Ok (mkT3 a b c (fun i j k =>
        f (at3 x (bidx (dim0 x) i) (bidx (dim1 x) j) (bidx (dim2 x) k))
          (at3 y (bidx (dim0 y) i) (bidx (dim1 y) j) (bidx (dim2 y) k)))).

Definition map1 (f : scalar -> scalar) (x : Tensor1) : Tensor1 :=
  mkT1 (len1 x) (fun i => f (at1 x i)).
Definition map2 (f : scalar -> scalar) (x : Tensor2) : Tensor2 :=
  mkT2 (rows2 x) (cols2 x) (fun i j => f (at2 x i j)).
Definition map3 (f : scalar -> scalar) (x : Tensor3) : Tensor3 :=
  mkT3 (dim0 x) (dim1 x) (dim2 x) (fun i j k => f (at3 x i j k)).

(** Operands are evaluated left to right; the first exception wins. *)
Definition op3 (f : scalar -> scalar -> scalar) (x y : result Tensor3) : result Tensor3 :=
  a <- x ;; b <- y ;; ew3 f a b.
Definition op2 (f : scalar -> scalar -> scalar) (x y : result Tensor2) : result Tensor2 :=
  a <- x ;; b <- y ;; ew2 f a b.
Definition un3 (f : scalar -> scalar) (x : result Tensor3) : result Tensor3 :=
  a <- x ;; Ok (map3 f a).
Definition un2 (f : scalar -> scalar) (x : result Tensor2) : result Tensor2 :=
  a <- x ;; Ok (map2 f a).

(** [torch.sum(x, 2)], [torch.sum(x)]. *)
Definition sum_dim2 (x : Tensor3) : Tensor2 :=
  mkT2 (dim0 x) (dim1 x) (fun i j => Scalar.sum (dim2 x) (fun k => at3 x i j k)).
Definition sum2 (x : Tensor2) : scalar :=
  Scalar.sum (rows2 x) (fun i => Scalar.sum (cols2 x) (fun j => at2 x i j)).
Definition sum3 (x : Tensor3) : scalar :=
  Scalar.sum (dim0 x) (fun i =>
    Scalar.sum (dim1 x) (fun j => Scalar.sum (dim2 x) (fun k => at3 x i j k))).

Definition zeros1 (n : nat) : Tensor1 := mkT1 n (fun _ => const 0).
Definition ones1 (n : nat) : Tensor1 := mkT1 n (fun _ => const 1).
Definition zeros2 (r c : nat) : Tensor2 := mkT2 r c (fun _ _ => const 0).

(** [torch.Tensor([a, b, ...])]. *)
Definition of_list (l : list R) : Tensor1 :=
  mkT1 (length l) (fun i => const (nth i l 0%R)).

Definition same_len (n : nat) (x : Tensor1) : bool := len1 x =? n.
Definition same_shape2 (r c : nat) (x : Tensor2) : bool :=
  (rows2 x =? r) && (cols2 x =? c).

(** [torch.stack(l)] of vectors: a new leading dimension. *)
Definition stack1 (l : list Tensor1) : result Tensor2 :=
  match l with
  | [] => Raise RuntimeError
  | x :: _ =>
      if forallb (same_len (len1 x)) l
      then Ok (mkT2 (length l) (len1 x) (fun i j => at1 (nth i l x) j))
      else Raise RuntimeError
  end.

(** [torch.stack(l)] of matrices: a new leading dimension. *)
Definition stack2_dim0 (l : list Tensor2) : result Tensor3 :=
  match l with
  | [] => Raise RuntimeError
  | x :: _ =>
      if forallb (same_shape2 (rows2 x) (cols2 x)) l
      then Ok (mkT3 (length l) (rows2 x) (cols2 x) (fun i j k => at2 (nth i l x) j k))
      else Raise RuntimeError
  end.

(** [torch.stack(l, 2)] of matrices: a new trailing dimension. *)
Definition stack2_dim2 (l : list Tensor2) : result Tensor3 :=
  match l with
  | [] => Raise RuntimeError
  | x :: _ =>
      if forallb (same_shape2 (rows2 x) (cols2 x)) l
      then Ok (mkT3 (rows2 x) (cols2 x) (length l) (fun i j k => at2 (nth k l x) i j))
      else Raise RuntimeError
  end.

(** [x.unsqueeze(0)]. *)
Definition unsqueeze0 (x : Tensor2) : Tensor3 :=
  mkT3 1 (rows2 x) (cols2 x) (fun _ j k => at2 x j k).

(** [torch.cat([x, y], 0)] and [torch.cat([x, y], 2)]. *)
Definition cat0 (x y : Tensor3) : result Tensor3 :=
  if (dim1 x =? dim1 y) && (dim2 x =? dim2 y)
  then Ok (mkT3 (dim0 x + dim0 y) (dim1 x) (dim2 x) (fun i j k =>
             if i <? dim0 x then at3 x i j k else at3 y (i - dim0 x) j k))
  else Raise RuntimeError.

Definition cat2 (x y : Tensor3) : result Tensor3 :=
  if (dim0 x =? dim0 y) && (dim1 x =? dim1 y)
  then Ok (mkT3 (dim0 x) (dim1 x) (dim2 x + dim2 y) (fun i j k =>
             if k <? dim2 x then at3 x i j k else at3 y i j (k - dim2 x)))
  else Raise RuntimeError.

(** [x[s:]]: the slice is clamped to the size, as Python slices are. *)
Definition slice_from (s : nat) (x : Tensor3) : Tensor3 :=
  mkT3 (dim0 x - s) (dim1 x) (dim2 x) (fun i j k => at3 x (i + s) j k).

(** [x[:, :, c]]. *)
Definition select2 (c : nat) (x : Tensor3) : result Tensor2 :=
  if c <? dim2 x
  then Ok (mkT2 (dim0 x) (dim1 x) (fun i j => at3 x i j c))
  else Raise IndexError.

(** [x[lo:hi, c] = v]: the row slice is clamped, the column index is not. *)
Definition setitem_rows_col (x : Tensor2) (lo hi c : nat) (v : scalar) : result Tensor2 :=
  if c <? cols2 x
  then Ok (mkT2 (rows2 x) (cols2 x) (fun i j =>
             if (lo <=? i) && (i <? hi) && (j =? c) then v else at2 x i j))
  else Raise IndexError.

(** [torch.nn.MSELoss()(input, target)]: the mean of the squared
    differences of two tensors of one size. *)
Definition MSELoss (input target : Tensor1) : result scalar :=
  if len1 input =? len1 target
  then Ok (div (Scalar.sum (len1 input)
                  (fun i => pow (sub (at1 input i) (at1 target i)) 2))
               (const (INR (len1 input))))
  else Raise RuntimeError.

End Torch.

(** ** Tensor expressions

    The arithmetic of the source on tensors, written as it is there.  A
    Python number combined with a tensor acts on every entry. *)

Definition ret3 (x : Tensor3) : result Tensor3 := Ok x.
Definition ret2 (x : Tensor2) : result Tensor2 := Ok x.
Coercion ret3 : Tensor3 >-> result.
Coercion ret2 : Tensor2 >-> result.

Declare Scope tensor_scope.
Delimit Scope tensor_scope with T.

Notation "x + y" := (Torch.op3 Scalar.add x y) : tensor_scope.
Notation "x - y" := (Torch.op3 Scalar.sub x y) : tensor_scope.
Notation "x * y" := (Torch.op3 Scalar.mul x y) : tensor_scope.
Notation "x / y" := (Torch.op3 Scalar.div x y) : tensor_scope.
Notation "x ** n" := (Torch.un3 (fun a => Scalar.pow a n) x)
  (at level 30, right associativity) : tensor_scope.
Notation "c *: x" := (Torch.un3 (Scalar.mul (Scalar.const c)) x)
  (at level 40, left associativity) : tensor_scope.
Notation "c -: x" := (Torch.un3 (Scalar.sub (Scalar.const c)) x)
  (at level 50, left associativity) : tensor_scope.
Notation "c /: x" := (Torch.un3 (Scalar.div (Scalar.const c)) x)
  (at level 40, left associativity) : tensor_scope.

(** ** The model *)

(** The fields of [hyperparameters.HyperParameters] that [model.py] reads. *)
Record HyperParameters : Type := mkHps {
  num_mixture : nat;
  batch_size : nat;
  latent_vector_length : nat;
  num_epoch : nat;
  epsilon : R;
  gan_loss_weight : R;
  lr : R
}.

Record Model : Type := mkModel {
  hps : HyperParameters;
  N_max : nat
}.

(** [float(n)]. *)
Definition float (n : nat) : scalar := const (INR n).

(** The loop of [get_ground_truth] over [enumerate(sequence_lengths)]. *)
Fixpoint fill_mask (mask : Tensor2) (sequence_index : nat) (sequence_lengths : list nat)
  : result Tensor2 :=
  match sequence_lengths with
  | [] => Ok mask
  | sequence_length :: rest =>
      mask <- Torch.setitem_rows_col mask 1 (sequence_length + 1) sequence_index (const 1) ;;
      fill_mask mask (S sequence_index) rest
  end.

Definition get_ground_truth (self : Model) (batch : Tensor3) (sequence_lengths : list nat)
  : result (Tensor2 * Tensor3 * Tensor3 * Tensor3) :=
  eos <- Torch.stack1 (repeat (Torch.of_list [0; 0; 0; 0; 1]%R) (dim1 batch)) ;;
  let end_of_sequence := Torch.unsqueeze0 eos in
  batch <- Torch.cat0 batch end_of_sequence ;;
  let mask := Torch.zeros2 (N_max self + 1) (dim1 batch) in
  mask <- fill_mask mask 0 sequence_lengths ;;
  col0 <- Torch.select2 0 (Torch.slice_from 1 batch) ;;
  delta_x <- Torch.stack2_dim2 (repeat col0 (num_mixture (hps self))) ;;
  col1 <- Torch.select2 1 (Torch.slice_from 1 batch) ;;
  delta_y <- Torch.stack2_dim2 (repeat col1 (num_mixture (hps self))) ;;
  col2 <- Torch.select2 2 (Torch.slice_from 1 batch) ;;
  col3 <- Torch.select2 3 (Torch.slice_from 1 batch) ;;
  col4 <- Torch.select2 4 (Torch.slice_from 1 batch) ;;
  pen_state <- Torch.stack2_dim2 [col2; col3; col4] ;;
  Ok (mask, delta_x, delta_y, pen_state).

Definition compute_bivariate_normal_pdf
  (delta_x delta_y mu_x mu_y sigma_x sigma_y rho_xy : Tensor3) : result Tensor3 :=
  (z_x <- ((delta_x - mu_x) / sigma_x) ** 2 ;;
   z_y <- ((delta_y - mu_y) / sigma_y) ** 2 ;;
   z_xy <- 2 *: rho_xy * (delta_x - mu_x) / sigma_x * (delta_y - mu_y) / sigma_y ;;
   exp <- Torch.un3 Scalar.exp ((z_x + z_y - z_xy) / ((-2) *: (1 -: rho_xy ** 2))) ;;
   const <- 1 /: ((2 * PI) *: sigma_x * sigma_y * Torch.un3 Scalar.sqrt (1 -: rho_xy ** 2)) ;;
   const * exp)%T.

Definition compute_reconstruction_loss (self : Model)
  (mask : Tensor2) (delta_x delta_y pen_state pi mu_x mu_y sigma_x sigma_y rho_xy q : Tensor3)
  : result (scalar * scalar * scalar) :=
  bivariate_normal_pdf <-
    compute_bivariate_normal_pdf delta_x delta_y mu_x mu_y sigma_x sigma_y rho_xy ;;
  mixture <- (pi * bivariate_normal_pdf)%T ;;
  masked <- Torch.op2 Scalar.mul mask
              (Torch.un2 Scalar.log
                 (Torch.un2 (Scalar.add (const (epsilon (hps self))))
                    (Torch.sum_dim2 mixture))) ;;
  let Ls := div (neg (Torch.sum2 masked))
                (float ((N_max self + 1) * batch_size (hps self))) in
  pen <- (pen_state * Torch.un3 Scalar.log q)%T ;;
  let Lp := div (neg (Torch.sum3 pen))
                (float ((N_max self + 1) * batch_size (hps self))) in
  Ok (add Ls Lp, Ls, Lp).

(** ** The training loop

    [train] calls code that is not part of [model.py]: the data loader, the
    generator and the discriminator networks, the sampler of [utils], the
    optimizers and automatic differentiation of the tensor library, the
    console and the file system.  Their state is an abstract world [W]; each
    call is a transition of it that may raise.  Every call is recorded, in
    the order in which it is made, in a log of events. *)

Inductive net : Type := G | D.

(** The seven outputs of the generator that [train] uses. *)
Record GenOut : Type := mkGenOut {
  g_pi : Tensor3;
  g_mu_x : Tensor3;
  g_mu_y : Tensor3;
  g_sigma_x : Tensor3;
  g_sigma_y : Tensor3;
  g_rho_xy : Tensor3;
  g_q : Tensor3
}.

Inductive event : Type :=
| EvAdam (n : net) (rate : R)
| EvGetBatch (batch : Tensor3) (lengths : list nat)
| EvZeroGrad (n : net)
| EvGenerator (inputs : Tensor3) (out : GenOut)
| EvSample (generated_sequences : Tensor3)
| EvDiscriminator (input : Tensor3) (validity : Tensor1)
| EvBackward (n : net) (loss : scalar)
| EvStep (n : net)
| EvPrint (i : nat) (loss_G loss_D : scalar)
| EvSave
| EvGenerateImage (i : nat).

(** The calls.  [env_print i loss_G loss_D] is all of line 112: the two
    reads [loss_G.data[0]] and [loss_D.data[0]] of the tensor library, then
    the output to the console.  It raises where one of the reads does, as
    on a tensor library whose losses have no dimension to index. *)
Record Env (W : Type) : Type := mkEnv {
  env_adam : net -> R -> W -> result (unit * W);
  env_get_batch : nat -> W -> result (Tensor3 * list nat * W);
  env_generator : Tensor3 -> Tensor2 -> nat -> W -> result (GenOut * W);
  env_generate_sequences_from_distributions : GenOut -> W -> result (Tensor3 * W);
  env_discriminator : Tensor3 -> nat -> W -> result (Tensor1 * W);
  env_zero_grad : net -> W -> result (unit * W);
  env_backward : net -> scalar -> W -> result (unit * W);
  env_step : net -> W -> result (unit * W);
  env_print : nat -> scalar -> scalar -> W -> result (unit * W);
  env_save : W -> result (unit * W);
  env_generate_image_with_model : nat -> nat -> W -> result (unit * W)
}.

Record State (W : Type) : Type := mkState { world : W; log : list event }.

Definition M (W A : Type) : Type := State W -> result (A * State W).

Definition mret {W A : Type} (a : A) : M W A := fun s => Ok (a, s).

Definition mbind {W A B : Type} (m : M W A) (k : A -> M W B) : M W B :=
  fun s => '(a, s') <- m s ;; k a s'.

Notation "x <~ m ;; k" := (mbind m (fun x => k))
  (at level 61, m at next level, right associativity).
Notation "' pat <~ m ;; k" := (mbind m (fun x => match x with pat => k end))
  (at level 61, pat pattern, m at next level, right associativity).

(** A pure computation of [model.py] that may raise. *)
Definition lift {W A : Type} (r : result A) : M W A :=
  fun s => a <- r ;; Ok (a, s).

(** A call into the world, logged once it has returned. *)
Definition call {W A : Type} (f : W -> result (A * W)) (ev : A -> event) : M W A :=
  fun s => '(a, w) <- f (world s) ;; Ok (a, mkState w (log s ++ [ev a])).

(** [for i in range(start, start + n): body(i)]. *)
Fixpoint for_range {W : Type} (body : nat -> M W unit) (start n : nat) : M W unit :=
  match n with
  | O => mret tt
  | S m => _ <~ body start ;; for_range body (S start) m
  end.

Section Train.

Variable W : Type.
Variable env : Env W.
Variable self : Model.

(** One iteration of the loop of [train]. *)
Definition epoch (i : nat) : M W unit :=
  let valid := Torch.ones1 (batch_size (hps self)) in
  let fake := Torch.zeros1 (batch_size (hps self)) in
  '(batch, lengths) <~ call (env_get_batch env (batch_size (hps self)))
                            (fun bl => EvGetBatch (fst bl) (snd bl)) ;;
  let z := Torch.zeros2 (batch_size (hps self)) (latent_vector_length (hps self)) in
  z_stack <~ lift (Torch.stack2_dim0 (repeat z (N_max self + 1))) ;;
  inputs <~ lift (Torch.cat2 batch z_stack) ;;
  _ <~ call (env_zero_grad env G) (fun _ => EvZeroGrad G) ;;
  out <~ call (env_generator env inputs z (N_max self + 1)) (EvGenerator inputs) ;;
  generated_sequences <~ call (env_generate_sequences_from_distributions env out) EvSample ;;
  gen_validity <~ call (env_discriminator env generated_sequences (batch_size (hps self)))
                       (EvDiscriminator generated_sequences) ;;
  loss_GAN <~ lift (Torch.MSELoss gen_validity valid) ;;
  '(mask, delta_x, delta_y, pen_state) <~ lift (get_ground_truth self batch lengths) ;;
  '(loss_content, Ls, Lp) <~
    lift (compute_reconstruction_loss self mask delta_x delta_y pen_state
            (g_pi out) (g_mu_x out) (g_mu_y out) (g_sigma_x out) (g_sigma_y out)
            (g_rho_xy out) (g_q out)) ;;
  let loss_G := add (mul (const (1 - gan_loss_weight (hps self))) loss_content)
                    (mul (const (gan_loss_weight (hps self))) loss_GAN) in
  _ <~ call (env_backward env G loss_G) (fun _ => EvBackward G loss_G) ;;
  _ <~ call (env_step env G) (fun _ => EvStep G) ;;
  _ <~ call (env_zero_grad env D) (fun _ => EvZeroGrad D) ;;
  real_validity <~ call (env_discriminator env batch (batch_size (hps self)))
                        (EvDiscriminator batch) ;;
  loss_real <~ lift (Torch.MSELoss real_validity valid) ;;
  fake_validity <~ call (env_discriminator env generated_sequences (batch_size (hps self)))
                        (EvDiscriminator generated_sequences) ;;
  loss_fake <~ lift (Torch.MSELoss fake_validity fake) ;;
  let loss_D := div (add loss_real loss_fake) (const 2) in
  _ <~ call (env_backward env D loss_D) (fun _ => EvBackward D loss_D) ;;
  _ <~ call (env_step env D) (fun _ => EvStep D) ;;
  _ <~ call (env_print env i loss_G loss_D) (fun _ => EvPrint i loss_G loss_D) ;;
  if i mod 100 =? 0
  then _ <~ call (env_save env) (fun _ => EvSave) ;;
       call (env_generate_image_with_model env (N_max self) i) (fun _ => EvGenerateImage i)
  else mret tt.

Definition train : M W unit :=
  _ <~ call (env_adam env G (lr (hps self))) (fun _ => EvAdam G (lr (hps self))) ;;
  _ <~ call (env_adam env D (lr (hps self))) (fun _ => EvAdam D (lr (hps self))) ;;
  for_range epoch 0 (num_epoch (hps self)).

End Train.

(** ** The statements of the specification *)

Declare Scope scalar_scope.
Delimit Scope scalar_scope with S.
Notation "x + y" := (Scalar.add x y) : scalar_scope.
Notation "x - y" := (Scalar.sub x y) : scalar_scope.
Notation "x * y" := (Scalar.mul x y) : scalar_scope.
Notation "x / y" := (Scalar.div x y) : scalar_scope.
Notation "- x" := (Scalar.neg x) : scalar_scope.
Notation "x ^ n" := (Scalar.pow x n) : scalar_scope.
Notation "# r" := (Scalar.const r%R) (at level 5, format "# r") : scalar_scope.

(** What [compute_bivariate_normal_pdf] computes in one entry. *)
Definition pdf_entry (delta_x delta_y mu_x mu_y sigma_x sigma_y rho_xy : scalar) : scalar :=
  (let z_x := ((delta_x - mu_x) / sigma_x) ^ 2 in
   let z_y := ((delta_y - mu_y) / sigma_y) ^ 2 in
   let z_xy := #2 * rho_xy * (delta_x - mu_x) / sigma_x * (delta_y - mu_y) / sigma_y in
   let exp := Scalar.exp ((z_x + z_y - z_xy) / (#(-2) * (#1 - rho_xy ^ 2))) in
   let const := #1 / (#(2 * PI) * sigma_x * sigma_y * Scalar.sqrt (#1 - rho_xy ^ 2)) in
   const * exp)%S.

(** The density of the bivariate normal distribution, as the specification
    writes it. *)
Definition bivariate_normal_density
  (delta_x delta_y mu_x mu_y sigma_x sigma_y rho_xy : scalar) : scalar :=
  ((#1 / (#2 * #PI * sigma_x * sigma_y * Scalar.sqrt (#1 - rho_xy ^ 2)))
   * Scalar.exp
       (- (((delta_x - mu_x) / sigma_x) ^ 2 + ((delta_y - mu_y) / sigma_y) ^ 2
           - #2 * rho_xy * ((delta_x - mu_x) / sigma_x) * ((delta_y - mu_y) / sigma_y))
        / (#2 * (#1 - rho_xy ^ 2))))%S.

Ltac unfold_scalar :=
  cbv beta iota zeta delta
    [pdf_entry bivariate_normal_density
     Scalar.add Scalar.sub Scalar.mul Scalar.neg Scalar.exp Scalar.pow
     Scalar.div Scalar.sqrt Scalar.log Scalar.lift1 Scalar.lift2 Scalar.const float].

Ltac case_dec :=
  repeat (match goal with
          | |- context [Req_dec_T ?a ?b] => destruct (Req_dec_T a b)
          | |- context [Rlt_dec ?a ?b] => destruct (Rlt_dec a b)
          end; cbv beta iota).

(** [x.size()]. *)
Definition size2 (x : Tensor2) : nat * nat := (rows2 x, cols2 x).
Definition size3 (x : Tensor3) : nat * nat * nat := (dim0 x, dim1 x, dim2 x).

(** The stroke loss and the pen loss, as the specification writes them:
    sums over all time steps [t], batch elements [b] and mixture components
    [m], or pen states [c]. *)
Definition Ls_spec (self : Model) (mask : Tensor2)
  (delta_x delta_y pi mu_x mu_y sigma_x sigma_y rho_xy : Tensor3) : scalar :=
  (- Scalar.sum (rows2 mask) (fun t =>
       Scalar.sum (cols2 mask) (fun b =>
         at2 mask t b
         * Scalar.log
             (#(epsilon (hps self))
              + Scalar.sum (dim2 pi) (fun m =>
                  at3 pi t b m
                  * bivariate_normal_density
                      (at3 delta_x t b m) (at3 delta_y t b m) (at3 mu_x t b m)
                      (at3 mu_y t b m) (at3 sigma_x t b m) (at3 sigma_y t b m)
                      (at3 rho_xy t b m)))))
   / float ((N_max self + 1) * batch_size (hps self)))%S.

Definition Lp_spec (self : Model) (pen_state q : Tensor3) : scalar :=
  (- Scalar.sum (dim0 pen_state) (fun t =>
       Scalar.sum (dim1 pen_state) (fun b =>
         Scalar.sum (dim2 pen_state) (fun c =>
           at3 pen_state t b c * Scalar.log (at3 q t b c))))
   / float ((N_max self + 1) * batch_size (hps self)))%S.

(** The batch with the end-of-sequence step [[0, 0, 0, 0, 1]] after its last
    time step, for every batch element. *)
Definition extended (batch : Tensor3) (t b c : nat) : scalar :=
  if t <? dim0 batch then at3 batch t b c else const (nth c [0; 0; 0; 0; 1]%R 0%R).

(** The mask that the specification describes: the column of sequence [b]
    is 1 at the rows 1 to [sequence_length] and 0 elsewhere. *)
Definition mask_spec (sequence_lengths : list nat) (t b : nat) : scalar :=
  match nth_error sequence_lengths b with
  | Some sequence_length =>
      if (1 <=? t) && (t <=? sequence_length) then const 1 else const 0
  | None => const 0
  end.

(** The mean squared error of the entries of [v] against a constant target. *)
Definition mean_squared_error (v : Tensor1) (target : R) : scalar :=
  (Scalar.sum (len1 v) (fun i => (at1 v i - #target) ^ 2) / #(INR (len1 v)))%S.

(** The calls of an iteration that update a network. *)
Inductive update_call : Type := ZeroGrad | Backward | Step.

Definition update_view (e : event) : option (net * update_call) :=
  match e with
  | EvZeroGrad n => Some (n, ZeroGrad)
  | EvBackward n _ => Some (n, Backward)
  | EvStep n => Some (n, Step)
  | _ => None
  end.

Fixpoint view {A : Type} (f : event -> option A) (l : list event) : list A :=
  match l with
  | [] => []
  | e :: rest =>
      match f e with
      | Some a => a :: view f rest
      | None => view f rest
      end
  end.

(** One generator update, then one discriminator update. *)
Definition one_iteration : list (net * update_call) :=
  [(G, ZeroGrad); (G, Backward); (G, Step); (D, ZeroGrad); (D, Backward); (D, Step)].

(** The operations of one epoch, in the order of the specification. *)
Record EpochValues : Type := mkEpochValues {
  v_batch : Tensor3;
  v_lengths : list nat;
  v_inputs : Tensor3;
  v_out : GenOut;
  v_generated_sequences : Tensor3;
  v_gen_validity : Tensor1;
  v_real_validity : Tensor1;
  v_fake_validity : Tensor1;
  v_loss_G : scalar;
  v_loss_D : scalar
}.

Definition batch_fetch (x : EpochValues) : list event :=
  [EvGetBatch (v_batch x) (v_lengths x)].

Definition generator_update (x : EpochValues) : list event :=
  [EvZeroGrad G;
   EvGenerator (v_inputs x) (v_out x);
   EvSample (v_generated_sequences x);
   EvDiscriminator (v_generated_sequences x) (v_gen_validity x);
   EvBackward G (v_loss_G x);
   EvStep G].

Definition discriminator_update (x : EpochValues) : list event :=
  [EvZeroGrad D;
   EvDiscriminator (v_batch x) (v_real_validity x);
   EvDiscriminator (v_generated_sequences x) (v_fake_validity x);
   EvBackward D (v_loss_D x);
   EvStep D].

Definition logging (i : nat) (x : EpochValues) : list event :=
  [EvPrint i (v_loss_G x) (v_loss_D x)].

Definition periodic_save (i : nat) : list event :=
  if i mod 100 =? 0 then [EvSave; EvGenerateImage i] else [].

Definition epoch_events (i : nat) (x : EpochValues) : list event :=
  batch_fetch x ++ generator_update x ++ discriminator_update x ++ logging i x
  ++ periodic_save i.

(** The two total losses of an epoch, as the specification writes them. *)
Definition loss_G_spec (self : Model) (loss_content : scalar) (gen_validity : Tensor1)
  : scalar :=
  (#(1 - gan_loss_weight (hps self)) * loss_content
   + #(gan_loss_weight (hps self)) * mean_squared_error gen_validity 1)%S.

Definition loss_D_spec (real_validity fake_validity : Tensor1) : scalar :=
  ((mean_squared_error real_validity 1 + mean_squared_error fake_validity 0) / #2)%S.

(** The events of epoch [i] are [seg], on a batch of [N_max + 1] time steps
    and with the losses of the specification. *)
Definition epoch_with_losses (self : Model) (i : nat) (seg : list event) : Prop :=
  exists (x : EpochValues) mask delta_x delta_y pen_state loss_content Ls Lp,
    seg = epoch_events i x
    /\ size3 (v_batch x) = (N_max self + 1, batch_size (hps self), 5)
    /\ get_ground_truth self (v_batch x) (v_lengths x)
       = Ok (mask, delta_x, delta_y, pen_state)
    /\ compute_reconstruction_loss self mask delta_x delta_y pen_state
         (g_pi (v_out x)) (g_mu_x (v_out x)) (g_mu_y (v_out x))
         (g_sigma_x (v_out x)) (g_sigma_y (v_out x)) (g_rho_xy (v_out x))
         (g_q (v_out x))
       = Ok (loss_content, Ls, Lp)
    /\ v_loss_G x = loss_G_spec self loss_content (v_gen_validity x)
    /\ v_loss_D x = loss_D_spec (v_real_validity x) (v_fake_validity x).

(** Two sizes of one dimension that cannot be broadcast. *)
Definition incompatible (a b : nat) : Prop := a <> b /\ a <> 1 /\ b <> 1.

(** The entries at [(t, b, k)] are real numbers inside the domain of the
    density, with a mixture weight that is not negative. *)
Definition mixture_entry_ok
  (delta_x delta_y pi mu_x mu_y sigma_x sigma_y rho_xy : Tensor3) (t b k : nat) : Prop :=
  exists p dx dy mx my sx sy rho : R,
    at3 pi t b k = Some p /\ at3 delta_x t b k = Some dx /\ at3 delta_y t b k = Some dy
    /\ at3 mu_x t b k = Some mx /\ at3 mu_y t b k = Some my
    /\ at3 sigma_x t b k = Some sx /\ at3 sigma_y t b k = Some sy
    /\ at3 rho_xy t b k = Some rho
    /\ (0 <= p)%R /\ (0 < sx)%R /\ (0 < sy)%R /\ (rho ^ 2 < 1)%R.

(** The events of a log that write a checkpoint. *)
Definition checkpoint_view (e : event) : option event :=
  match e with
  | EvSave => Some EvSave
  | EvGenerateImage i => Some (EvGenerateImage i)
  | _ => None
  end.

(** [dataset_name[:-4]] of the main program, on a name as a sequence of
    characters: all but the last four. *)
Definition dataset_name {char : Type} (file_name : list char) : list char :=
  firstn (length file_name - 4) file_name.

(** The call into the world that an event of the log records: made in the
    world [w], it returns what the event holds and leaves the world [w']. *)
Inductive step_of (W : Type) (env : Env W) (self : Model) : W -> event -> W -> Prop :=
| step_adam (n : net) (rate : R) (w w' : W) :
    env_adam env n rate w = Ok (tt, w') ->
    step_of env self w (EvAdam n rate) w'
| step_get_batch (batch : Tensor3) (lengths : list nat) (w w' : W) :
    env_get_batch env (batch_size (hps self)) w = Ok (batch, lengths, w') ->
    step_of env self w (EvGetBatch batch lengths) w'
| step_zero_grad (n : net) (w w' : W) :
    env_zero_grad env n w = Ok (tt, w') ->
    step_of env self w (EvZeroGrad n) w'
| step_generator (inputs : Tensor3) (out : GenOut) (w w' : W) :
    env_generator env inputs
      (Torch.zeros2 (batch_size (hps self)) (latent_vector_length (hps self)))
      (N_max self + 1) w = Ok (out, w') ->
    step_of env self w (EvGenerator inputs out) w'
| step_sample (out : GenOut) (generated_sequences : Tensor3) (w w' : W) :
    env_generate_sequences_from_distributions env out w = Ok (generated_sequences, w') ->
    step_of env self w (EvSample generated_sequences) w'
| step_discriminator (input : Tensor3) (validity : Tensor1) (w w' : W) :
    env_discriminator env input (batch_size (hps self)) w = Ok (validity, w') ->
    step_of env self w (EvDiscriminator input validity) w'
| step_backward (n : net) (loss : scalar) (w w' : W) :
    env_backward env n loss w = Ok (tt, w') ->
    step_of env self w (EvBackward n loss) w'
| step_step (n : net) (w w' : W) :
    env_step env n w = Ok (tt, w') ->
    step_of env self w (EvStep n) w'
| step_print (i : nat) (loss_G loss_D : scalar) (w w' : W) :
    env_print env i loss_G loss_D w = Ok (tt, w') ->
    step_of env self w (EvPrint i loss_G loss_D) w'
| step_save (w w' : W) :
    env_save env w = Ok (tt, w') ->
    step_of env self w EvSave w'
| step_generate_image (i : nat) (w w' : W) :
    env_generate_image_with_model env (N_max self) i w = Ok (tt, w') ->
    step_of env self w (EvGenerateImage i) w'.

(** The world [w'] is the world [w] after the calls of the events, made one
    after the other in the order of the list, and no other call. *)
Inductive replay (W : Type) (env : Env W) (self : Model) : W -> list event -> W -> Prop :=
| replay_nil (w : W) : replay env self w [] w
| replay_cons (w w1 w2 : W) (e : event) (events : list event) :
    step_of env self w e w1 -> replay env self w1 events w2 ->
    replay env self w (e :: events) w2.

(** ** Single precision

    The tensors of the program hold IEEE 754 binary32 numbers.  Products,
    differences, quotients and square roots of such numbers, rounded to the
    nearest, are computed here as the program computes them. *)

Module Float32.

Definition prec : Z := 24.
Definition emax : Z := 128.

Definition mul : SpecFloat.spec_float -> SpecFloat.spec_float -> SpecFloat.spec_float :=
  SpecFloat.SFmul prec emax.
Definition sub : SpecFloat.spec_float -> SpecFloat.spec_float -> SpecFloat.spec_float :=
  SpecFloat.SFsub prec emax.
Definition div : SpecFloat.spec_float -> SpecFloat.spec_float -> SpecFloat.spec_float :=
  SpecFloat.SFdiv prec emax.
Definition sqrt : SpecFloat.spec_float -> SpecFloat.spec_float :=
  SpecFloat.SFsqrt prec emax.

Definition zero : SpecFloat.spec_float := SpecFloat.S754_zero false.
Definition one : SpecFloat.spec_float := SpecFloat.S754_finite false 8388608 (-23).

(** [2 * np.pi], rounded to binary32: [13176795 * 2 ^ -21 = 6.2831855]. *)
Definition two_pi : SpecFloat.spec_float := SpecFloat.S754_finite false 13176795 (-21).

(** The binary32 number nearest to [1e-23]: [12676506 * 2 ^ -100]. *)
Definition tiny : SpecFloat.spec_float := SpecFloat.S754_finite false 12676506 (-100).

(** The divisor of line 48, [2 * np.pi * sigma_x * sigma_y * torch.sqrt(1 -
    rho_xy ** 2)], and [const], in one entry. *)
Definition const_divisor (sigma_x sigma_y rho_xy : SpecFloat.spec_float)
  : SpecFloat.spec_float :=
  mul (mul (mul two_pi sigma_x) sigma_y) (sqrt (sub one (mul rho_xy rho_xy))).

Definition const (sigma_x sigma_y rho_xy : SpecFloat.spec_float) : SpecFloat.spec_float :=
  div one (const_divisor sigma_x sigma_y rho_xy).

End Float32.

(** ** A small instance

    One batch element, sequences of at most one stroke, two mixture
    components, two epochs; networks that return constant tensors. *)

Definition full1 (n : nat) (v : R) : Tensor1 := mkT1 n (fun _ => const v).
Definition full2 (r c : nat) (v : R) : Tensor2 := mkT2 r c (fun _ _ => const v).
Definition full3 (a b c : nat) (v : R) : Tensor3 := mkT3 a b c (fun _ _ _ => const v).

Definition example_hps : HyperParameters :=
  {| num_mixture := 2; batch_size := 1; latent_vector_length := 1; num_epoch := 2;
     epsilon := (1 / 100000)%R; gan_loss_weight := (1 / 2)%R; lr := (1 / 1000)%R |}.

Definition example_model : Model := {| hps := example_hps; N_max := 1 |}.

(** The same hyperparameters, for sequences of at most three strokes. *)
Definition example_model_three : Model := {| hps := example_hps; N_max := 3 |}.

Definition example_batch : Tensor3 := full3 2 1 5 0.
Definition example_lengths : list nat := [1].

Definition example_out : GenOut :=
  {| g_pi := full3 2 1 2 (1 / 2); g_mu_x := full3 2 1 2 0; g_mu_y := full3 2 1 2 0;
     g_sigma_x := full3 2 1 2 1; g_sigma_y := full3 2 1 2 1; g_rho_xy := full3 2 1 2 0;
     g_q := full3 2 1 3 (1 / 3) |}.

(** The world of the instance counts the calls made into it. *)
Definition example_env : Env nat :=
  {| env_adam := fun _ _ w => Ok (tt, S w);
     env_get_batch := fun _ w => Ok (example_batch, example_lengths, S w);
     env_generator := fun _ _ _ w => Ok (example_out, S w);
     env_generate_sequences_from_distributions := fun _ w => Ok (full3 2 1 5 0, S w);
     env_discriminator := fun _ n w => Ok (full1 n (1 / 2), S w);
     env_zero_grad := fun _ w => Ok (tt, S w);
     env_backward := fun _ _ w => Ok (tt, S w);
     env_step := fun _ w => Ok (tt, S w);
     env_print := fun _ _ _ w => Ok (tt, S w);
     env_save := fun w => Ok (tt, S w);
     env_generate_image_with_model := fun _ _ w => Ok (tt, S w) |}.

Definition example_state : State nat := {| world := 0; log := [] |}.

(** The same collaborators, with a data loader whose batches have one time
    step too many. *)
Definition example_env_long_batch : Env nat :=
  mkEnv (env_adam example_env)
    (fun _ w => Ok (full3 3 1 5 0, example_lengths, S w))
    (env_generator example_env)
    (env_generate_sequences_from_distributions example_env)
    (env_discriminator example_env) (env_zero_grad example_env)
    (env_backward example_env) (env_step example_env) (env_print example_env)
    (env_save example_env) (env_generate_image_with_model example_env).

(** ** Scalars: the density *)

Lemma pdf_entry_density (dx dy mx my sx sy rho : scalar) :
  pdf_entry dx dy mx my sx sy rho = bivariate_normal_density dx dy mx my sx sy rho.
Proof.
  destruct dx as [dx|], dy as [dy|], mx as [mx|], my as [my|], sx as [sx|], sy as [sy|],
    rho as [rho|]; unfold_scalar; case_dec; try reflexivity; try (exfalso; lra).
  do 3 f_equal. field. repeat split; try assumption; lra.
Qed.

Lemma sqrt_one_minus_sq_neq_0 (rho : R) : (rho ^ 2 < 1)%R -> R_sqrt.sqrt (1 - rho ^ 2) <> 0%R.
Proof.
  intros H. apply Rgt_not_eq. apply sqrt_lt_R0. lra.
Qed.

Lemma pdf_const_neq_0 (sx sy rho : R) :
  sx <> 0%R -> sy <> 0%R -> (rho ^ 2 < 1)%R ->
  (2 * PI * sx * sy * R_sqrt.sqrt (1 - rho ^ 2))%R <> 0%R.
Proof.
  intros Hx Hy Hr.
  pose proof PI_RGT_0 as Hpi.
  pose proof (sqrt_one_minus_sq_neq_0 Hr) as Hs.
  assert (H2pi : (2 * PI)%R <> 0%R) by lra.
  apply Rmult_integral_contrapositive_currified; [ | exact Hs ].
  apply Rmult_integral_contrapositive_currified; [ | exact Hy ].
  apply Rmult_integral_contrapositive_currified; [ exact H2pi | exact Hx ].
Qed.

(** On real entries inside the domain the entry is a real number. *)
Lemma pdf_entry_defined (dx dy mx my sx sy rho : R) :
  sx <> 0%R -> sy <> 0%R -> (rho ^ 2 < 1)%R ->
  pdf_entry (Some dx) (Some dy) (Some mx) (Some my) (Some sx) (Some sy) (Some rho)
  = Some (1 / (2 * PI * sx * sy * R_sqrt.sqrt (1 - rho ^ 2))
          * Rtrigo_def.exp
              ((((dx - mx) / sx) ^ 2 + ((dy - my) / sy) ^ 2
                - 2 * rho * (dx - mx) / sx * (dy - my) / sy) / (-2 * (1 - rho ^ 2))))%R.
Proof.
  intros Hx Hy Hr.
  pose proof (pdf_const_neq_0 Hx Hy Hr) as Hc.
  unfold_scalar; case_dec; try reflexivity; exfalso; try contradiction; lra.
Qed.

(** Outside the domain, or on an entry that is not a number, it is not. *)
Lemma pdf_entry_some_inv (dx dy mx my sx sy rho : scalar) (v : R) :
  pdf_entry dx dy mx my sx sy rho = Some v ->
  exists a b c d e f r : R,
    dx = Some a /\ dy = Some b /\ mx = Some c /\ my = Some d /\
    sx = Some e /\ sy = Some f /\ rho = Some r /\
    e <> 0%R /\ f <> 0%R /\ (r ^ 2 < 1)%R.
Proof.
  destruct dx as [dx|], dy as [dy|], mx as [mx|], my as [my|], sx as [sx|], sy as [sy|],
    rho as [rho|]; unfold_scalar; case_dec; intros H; try discriminate H.
  exists dx, dy, mx, my, sx, sy, rho. repeat split; try assumption; lra.
Qed.

(** ** Tensors: entrywise operations on operands of one shape *)

Lemma broadcast_dim_refl (n : nat) : Torch.broadcast_dim n n = Ok n.
Proof. unfold Torch.broadcast_dim. now rewrite Nat.eqb_refl. Qed.

Lemma bidx_lt (d i : nat) : i < d -> Torch.bidx d i = i.
Proof.
  unfold Torch.bidx. intros H. destruct (Nat.eqb_spec d 1); [lia | reflexivity].
Qed.

Ltac same_size :=
  repeat match goal with
         | H : size3 _ = (_, _, _) |- _ =>
             unfold size3 in H; cbn [dim0 dim1 dim2] in H; injection H as -> -> ->
         | H : size2 _ = (_, _) |- _ =>
             unfold size2 in H; cbn [rows2 cols2] in H; injection H as -> ->
         end.

Ltac run_tensor_ops :=
  unfold Torch.op3, Torch.un3, Torch.ew3, Torch.map3, ret3,
         Torch.op2, Torch.un2, Torch.ew2, Torch.map2, ret2,
         Torch.sum_dim2, Torch.sum2, Torch.sum3;
  cbn [bind dim0 dim1 dim2 at3 rows2 cols2 at2];
  repeat (rewrite !broadcast_dim_refl; cbn [bind dim0 dim1 dim2 at3 rows2 cols2 at2]).

Lemma compute_bivariate_normal_pdf_entries
  (delta_x delta_y mu_x mu_y sigma_x sigma_y rho_xy : Tensor3) (T B M : nat) :
  size3 delta_x = (T, B, M) -> size3 delta_y = (T, B, M) ->
  size3 mu_x = (T, B, M) -> size3 mu_y = (T, B, M) ->
  size3 sigma_x = (T, B, M) -> size3 sigma_y = (T, B, M) -> size3 rho_xy = (T, B, M) ->
  exists r,
    compute_bivariate_normal_pdf delta_x delta_y mu_x mu_y sigma_x sigma_y rho_xy = Ok r
    /\ size3 r = (T, B, M)
    /\ forall i j k, i < T -> j < B -> k < M ->
         at3 r i j k = pdf_entry (at3 delta_x i j k) (at3 delta_y i j k) (at3 mu_x i j k)
                         (at3 mu_y i j k) (at3 sigma_x i j k) (at3 sigma_y i j k)
                         (at3 rho_xy i j k).
Proof.
  destruct delta_x, delta_y, mu_x, mu_y, sigma_x, sigma_y, rho_xy.
  intros H1 H2 H3 H4 H5 H6 H7. same_size.
  unfold compute_bivariate_normal_pdf. run_tensor_ops.
  eexists. split; [reflexivity | ]. split; [reflexivity | ].
  intros i j k Hi Hj Hk. cbn [at3].
  rewrite !(bidx_lt Hi), !(bidx_lt Hj), !(bidx_lt Hk). reflexivity.
Qed.

(** ** Sums *)

Lemma sum_ext (n : nat) (f g : nat -> scalar) :
  (forall i, i < n -> f i = g i) -> Scalar.sum n f = Scalar.sum n g.
Proof.
  induction n as [|n IH]; intros H; cbn [Scalar.sum]; [reflexivity | ].
  rewrite IH by (intros i Hi; apply H; lia).
  now rewrite H by lia.
Qed.

Lemma sum_some_inv (n : nat) (f : nat -> scalar) (v : R) :
  Scalar.sum n f = Some v -> forall i, i < n -> exists r, f i = Some r.
Proof.
  revert v. induction n as [|n IH]; intros v H i Hi; [lia | ].
  cbn [Scalar.sum] in H. unfold Scalar.add, Scalar.lift2 in H.
  destruct (Scalar.sum n f) as [a|] eqn:Ha; [ | discriminate H].
  destruct (f n) as [b|] eqn:Hb; [ | discriminate H].
  destruct (Nat.eq_dec i n) as [-> | Hne]; [eauto | ].
  apply (IH a eq_refl). lia.
Qed.

Lemma sum_some (n : nat) (f : nat -> scalar) :
  (forall i, i < n -> exists r, f i = Some r) -> exists v, Scalar.sum n f = Some v.
Proof.
  induction n as [|n IH]; intros H; cbn [Scalar.sum]; [unfold const; eauto | ].
  destruct IH as [a Ha]; [intros i Hi; apply H; lia | ].
  destruct (H n) as [b Hb]; [lia | ].
  rewrite Ha, Hb. cbn. eauto.
Qed.

(** ** The reconstruction loss *)

Lemma compute_reconstruction_loss_eq (self : Model) (mask : Tensor2)
  (delta_x delta_y pen_state pi mu_x mu_y sigma_x sigma_y rho_xy q : Tensor3)
  (T B M P : nat) :
  size2 mask = (T, B) ->
  size3 delta_x = (T, B, M) -> size3 delta_y = (T, B, M) -> size3 pi = (T, B, M) ->
  size3 mu_x = (T, B, M) -> size3 mu_y = (T, B, M) ->
  size3 sigma_x = (T, B, M) -> size3 sigma_y = (T, B, M) -> size3 rho_xy = (T, B, M) ->
  size3 pen_state = (T, B, P) -> size3 q = (T, B, P) ->
  compute_reconstruction_loss self mask delta_x delta_y pen_state pi mu_x mu_y
    sigma_x sigma_y rho_xy q
  = Ok (Scalar.add
          (Ls_spec self mask delta_x delta_y pi mu_x mu_y sigma_x sigma_y rho_xy)
          (Lp_spec self pen_state q),
        Ls_spec self mask delta_x delta_y pi mu_x mu_y sigma_x sigma_y rho_xy,
        Lp_spec self pen_state q).
Proof.
  intros Hm H1 H2 H3 H4 H5 H6 H7 H8 H9 H10.
  destruct (compute_bivariate_normal_pdf_entries H1 H2 H4 H5 H6 H7 H8)
    as (pdf & Hpdf & Hsize & Hentries).
  unfold compute_reconstruction_loss. rewrite Hpdf. cbn [bind].
  unfold Ls_spec, Lp_spec.
  destruct mask as [mr mc fmask], pi as [p0 p1 p2 fpi], pen_state as [s0 s1 s2 fpen],
    q as [q0 q1 q2 fq], pdf as [d0 d1 d2 fpdf].
  same_size. run_tensor_ops. cbn [at3] in Hentries.
  match goal with
  | |- Ok (Scalar.add ?a ?b, _, _) = Ok (Scalar.add ?c ?d, _, _) =>
      assert (Ha : a = c); [ | assert (Hb : b = d); [ | now rewrite Ha, Hb ] ]
  end.
  - do 2 f_equal.
    apply sum_ext; intros i Hi. apply sum_ext; intros j Hj.
    rewrite !(bidx_lt Hi), !(bidx_lt Hj). do 3 f_equal.
    apply sum_ext; intros k Hk. rewrite !(bidx_lt Hk).
    now rewrite Hentries, pdf_entry_density by assumption.
  - do 2 f_equal.
    apply sum_ext; intros i Hi. apply sum_ext; intros j Hj. apply sum_ext; intros k Hk.
    now rewrite !(bidx_lt Hi), !(bidx_lt Hj), !(bidx_lt Hk).
Qed.

(** ** The ground truth *)

Lemma fill_mask_inv (sequence_lengths : list nat) :
  forall (mask mask' : Tensor2) (sequence_index : nat),
    fill_mask mask sequence_index sequence_lengths = Ok mask' ->
    size2 mask' = size2 mask
    /\ (sequence_lengths <> [] -> sequence_index + length sequence_lengths <= cols2 mask)
    /\ forall t b,
         at2 mask' t b =
         if (sequence_index <=? b) && (b <? sequence_index + length sequence_lengths)
         then (if (1 <=? t) && (t <=? nth (b - sequence_index) sequence_lengths 0)
               then const 1 else at2 mask t b)
         else at2 mask t b.
Proof.
  induction sequence_lengths as [|len rest IH]; intros mask mask' idx H.
  - cbn in H. injection H as <-. split; [reflexivity | ]. split; [congruence | ].
    intros t b. cbn [length]. rewrite Nat.add_0_r.
    destruct (Nat.leb_spec idx b), (Nat.ltb_spec b idx); cbn; try reflexivity; lia.
  - cbn [fill_mask] in H. unfold Torch.setitem_rows_col in H.
    destruct (Nat.ltb_spec idx (cols2 mask)) as [Hidx | Hidx]; [ | discriminate H].
    cbn [bind] in H. apply IH in H. destruct H as (Hsize & Hlen & Hat).
    unfold size2 in *. cbn [rows2 cols2 at2] in *.
    split; [exact Hsize | ]. split.
    + intros _. cbn [length]. destruct rest as [|len' rest']; [cbn; lia | ].
      specialize (Hlen ltac:(discriminate)). lia.
    + intros t b. rewrite Hat. cbn [length].
      replace (t <? len + 1) with (t <=? len)
        by (destruct (Nat.leb_spec t len), (Nat.ltb_spec t (len + 1)); lia || reflexivity).
      replace (idx + S (length rest)) with (S idx + length rest) by lia.
      destruct (Nat.eqb_spec b idx) as [-> | Hne].
      * replace (S idx <=? idx) with false by (symmetry; apply Nat.leb_gt; lia).
        replace (idx <? S idx + length rest) with true by (symmetry; apply Nat.ltb_lt; lia).
        rewrite Nat.leb_refl, Nat.sub_diag. cbn [andb nth]. rewrite !andb_true_r.
        reflexivity.
      * rewrite andb_false_r.
        destruct (Nat.leb_spec (S idx) b) as [Hle | Hgt].
        -- replace (idx <=? b) with true by (symmetry; apply Nat.leb_le; lia).
           replace (b - idx) with (S (b - S idx)) by lia. reflexivity.
        -- replace (idx <=? b) with false by (symmetry; apply Nat.leb_gt; lia).
           reflexivity.
Qed.

Lemma stack1_repeat (x : Tensor1) (n : nat) :
  0 < n ->
  Torch.stack1 (repeat x n) = Ok (mkT2 n (len1 x) (fun i j => at1 (nth i (repeat x n) x) j)).
Proof.
  intros Hn. destruct n as [|n]; [lia | ].
  cbn [repeat Torch.stack1].
  assert (Hall : forallb (Torch.same_len (len1 x)) (x :: repeat x n) = true).
  { apply forallb_forall. intros y Hy.
    change (x :: repeat x n) with (repeat x (S n)) in Hy.
    apply repeat_spec in Hy. subst y. apply Nat.eqb_refl. }
  rewrite Hall. cbn [length]. now rewrite repeat_length.
Qed.

Lemma stack2_dim2_repeat (x : Tensor2) (n : nat) :
  0 < n ->
  Torch.stack2_dim2 (repeat x n)
  = Ok (mkT3 (rows2 x) (cols2 x) n (fun i j k => at2 (nth k (repeat x n) x) i j)).
Proof.
  intros Hn. destruct n as [|n]; [lia | ].
  cbn [repeat Torch.stack2_dim2].
  assert (Hall : forallb (Torch.same_shape2 (rows2 x) (cols2 x)) (x :: repeat x n) = true).
  { apply forallb_forall. intros y Hy.
    change (x :: repeat x n) with (repeat x (S n)) in Hy.
    apply repeat_spec in Hy. subst y. unfold Torch.same_shape2.
    now rewrite !Nat.eqb_refl. }
  rewrite Hall. cbn [length]. now rewrite repeat_length.
Qed.

Lemma get_ground_truth_inv (self : Model) (batch : Tensor3) (sequence_lengths : list nat)
  (mask : Tensor2) (delta_x delta_y pen_state : Tensor3) :
  get_ground_truth self batch sequence_lengths = Ok (mask, delta_x, delta_y, pen_state) ->
  0 < dim1 batch /\ dim2 batch = 5 /\ 0 < num_mixture (hps self)
  /\ fill_mask (Torch.zeros2 (N_max self + 1) (dim1 batch)) 0 sequence_lengths = Ok mask
  /\ size3 delta_x = (dim0 batch + 1 - 1, dim1 batch, num_mixture (hps self))
  /\ size3 delta_y = (dim0 batch + 1 - 1, dim1 batch, num_mixture (hps self))
  /\ size3 pen_state = (dim0 batch + 1 - 1, dim1 batch, 3)
  /\ (forall t b m, at3 delta_x t b m = extended batch (t + 1) b 0)
  /\ (forall t b m, at3 delta_y t b m = extended batch (t + 1) b 1)
  /\ (forall t b c, c < 3 -> at3 pen_state t b c = extended batch (t + 1) b (c + 2)).
Proof.
  unfold get_ground_truth. intros H.
  destruct (Nat.eq_dec (dim1 batch) 0) as [Hw | Hw].
  { rewrite Hw in H. cbn in H. discriminate H. }
  rewrite stack1_repeat in H by lia. cbn [bind] in H.
  unfold Torch.cat0, Torch.unsqueeze0 in H. cbn [dim0 dim1 dim2 at3 rows2 cols2 at2] in H.
  rewrite Nat.eqb_refl in H. cbn [andb Torch.of_list len1 length] in H.
  destruct (Nat.eqb_spec (dim2 batch) 5) as [Hf | Hf]; [ | discriminate H].
  cbn [bind dim0 dim1 dim2 at3] in H.
  destruct (fill_mask _ 0 sequence_lengths) as [mask0 | e] eqn:Hmask; [ | discriminate H].
  cbn [bind] in H.
  unfold Torch.select2, Torch.slice_from in H. cbn [dim0 dim1 dim2 at3] in H.
  rewrite Hf in H.
  change (0 <? 5) with true in H. change (1 <? 5) with true in H.
  change (2 <? 5) with true in H. change (3 <? 5) with true in H.
  change (4 <? 5) with true in H. cbn [bind] in H.
  destruct (Nat.eq_dec (num_mixture (hps self)) 0) as [Hm | Hm].
  { rewrite Hm in H. cbn in H. discriminate H. }
  rewrite !stack2_dim2_repeat in H by lia. cbn [bind rows2 cols2 at2] in H.
  unfold Torch.stack2_dim2, Torch.same_shape2 in H. cbn [forallb rows2 cols2] in H.
  rewrite !Nat.eqb_refl in H. cbn [andb bind length] in H.
  injection H as <- <- <- <-.
  unfold size3, extended. cbn [dim0 dim1 dim2 at3 at2 at1 Torch.of_list].
  repeat split; try lia; try reflexivity.
  - intros t b m. rewrite nth_repeat. cbn [at2]. rewrite nth_repeat. cbn [at1].
    reflexivity.
  - intros t b m. rewrite nth_repeat. cbn [at2]. rewrite nth_repeat. cbn [at1].
    reflexivity.
  - intros t b c Hc.
    destruct c as [|[|[|c]]]; [ | | | lia]; cbn [nth at2 Nat.add];
      rewrite nth_repeat; reflexivity.
Qed.

Lemma fill_mask_ok (sequence_lengths : list nat) :
  forall (mask : Tensor2) (sequence_index : nat),
    sequence_index + length sequence_lengths <= cols2 mask ->
    exists mask', fill_mask mask sequence_index sequence_lengths = Ok mask'.
Proof.
  induction sequence_lengths as [|len rest IH]; intros mask idx H; cbn [fill_mask].
  - eauto.
  - cbn [length] in H. unfold Torch.setitem_rows_col.
    replace (idx <? cols2 mask) with true by (symmetry; apply Nat.ltb_lt; lia).
    cbn [bind]. apply IH. cbn [cols2]. lia.
Qed.

(** On a batch of five features and at least one column, and with at least
    one mixture component, [get_ground_truth] returns. *)
Lemma get_ground_truth_ok (self : Model) (batch : Tensor3) (sequence_lengths : list nat) :
  0 < dim1 batch -> dim2 batch = 5 -> 0 < num_mixture (hps self) ->
  length sequence_lengths <= dim1 batch ->
  exists mask delta_x delta_y pen_state,
    get_ground_truth self batch sequence_lengths = Ok (mask, delta_x, delta_y, pen_state).
Proof.
  intros Hw Hf Hm Hlen. unfold get_ground_truth.
  rewrite stack1_repeat by lia. cbn [bind].
  unfold Torch.cat0, Torch.unsqueeze0. cbn [dim0 dim1 dim2 at3 rows2 cols2 at2].
  rewrite Nat.eqb_refl, Hf. cbn [andb Torch.of_list len1 length Nat.eqb bind dim1].
  destruct (@fill_mask_ok sequence_lengths (Torch.zeros2 (N_max self + 1) (dim1 batch)) 0)
    as [mask Hmask]; [cbn; lia | ].
  rewrite Hmask. cbn [bind].
  unfold Torch.select2, Torch.slice_from. cbn [dim0 dim1 dim2 at3].
  change (0 <? 5) with true. change (1 <? 5) with true.
  change (2 <? 5) with true. change (3 <? 5) with true.
  change (4 <? 5) with true. cbn [bind].
  rewrite !stack2_dim2_repeat by lia. cbn [bind rows2 cols2 at2].
  unfold Torch.stack2_dim2, Torch.same_shape2. cbn [forallb rows2 cols2].
  rewrite !Nat.eqb_refl. cbn [andb bind]. eauto 6.
Qed.

Lemma mask_entries_of_ground_truth (self : Model) (batch : Tensor3)
  (sequence_lengths : list nat) (mask : Tensor2) (delta_x delta_y pen_state : Tensor3) :
  get_ground_truth self batch sequence_lengths = Ok (mask, delta_x, delta_y, pen_state) ->
  size2 mask = (N_max self + 1, dim1 batch)
  /\ length sequence_lengths <= dim1 batch
  /\ forall t b, at2 mask t b = mask_spec sequence_lengths t b.
Proof.
  intros H. apply get_ground_truth_inv in H.
  destruct H as (_ & _ & _ & Hmask & _).
  apply fill_mask_inv in Hmask. destruct Hmask as (Hsize & Hlen & Hat).
  split; [exact Hsize | ]. split.
  - destruct sequence_lengths as [|len rest]; [cbn; lia | ].
    specialize (Hlen ltac:(discriminate)). cbn [Torch.zeros2 cols2] in Hlen. lia.
  - intros t b. rewrite Hat. unfold mask_spec. cbn [Nat.leb Nat.add Torch.zeros2 at2].
    rewrite Nat.sub_0_r.
    destruct (Nat.ltb_spec b (length sequence_lengths)) as [Hb | Hb]; cbn [andb].
    + destruct (nth_error sequence_lengths b) as [len|] eqn:Hnth.
      * apply (nth_error_nth _ _ 0) in Hnth. now rewrite Hnth.
      * apply nth_error_None in Hnth. lia.
    + apply nth_error_None in Hb. now rewrite Hb.
Qed.

(** ** The first time step and the stroke loss *)

Lemma add_assoc (a b c : scalar) :
  Scalar.add (Scalar.add a b) c = Scalar.add a (Scalar.add b c).
Proof.
  destruct a, b, c; cbn; try reflexivity. f_equal. ring.
Qed.

Lemma sum_shift (n : nat) (f : nat -> scalar) :
  Scalar.sum (S n) f = Scalar.add (f 0) (Scalar.sum n (fun i => f (S i))).
Proof.
  induction n as [|n IH].
  - cbn. destruct (f 0); cbn; [f_equal; ring | reflexivity].
  - change (Scalar.sum (S (S n)) f) with (Scalar.add (Scalar.sum (S n) f) (f (S n))).
    rewrite IH, add_assoc. reflexivity.
Qed.

Lemma sum_zero (n : nat) (f : nat -> scalar) :
  (forall i, i < n -> f i = Some 0%R) -> Scalar.sum n f = Some 0%R.
Proof.
  induction n as [|n IH]; intros H; cbn [Scalar.sum]; [reflexivity | ].
  rewrite IH by (intros i Hi; apply H; lia). rewrite H by lia.
  cbn. f_equal. ring.
Qed.

(** A row of the mask that is zero adds nothing to a sum that is a number. *)
Lemma masked_row_zero (n : nat) (m f : nat -> scalar) (v : R) :
  (forall b, b < n -> m b = Some 0%R) ->
  Scalar.sum n (fun b => Scalar.mul (m b) (f b)) = Some v ->
  v = 0%R.
Proof.
  intros Hm Hsum.
  assert (Hz : Scalar.sum n (fun b => Scalar.mul (m b) (f b)) = Some 0%R).
  { apply sum_zero. intros b Hb.
    destruct (sum_some_inv _ Hsum Hb) as [r Hr]. cbn beta in Hr.
    rewrite Hm in Hr |- * by assumption.
    destruct (f b) as [y|]; cbn in Hr |- *; [f_equal; ring | discriminate Hr]. }
  congruence.
Qed.

Lemma Ls_spec_first_step (self : Model) (mask : Tensor2)
  (delta_x delta_y delta_x' delta_y' pi mu_x mu_y sigma_x sigma_y rho_xy : Tensor3)
  (N : nat) (v v' : R) :
  rows2 mask = S N ->
  (forall b, b < cols2 mask -> at2 mask 0 b = Some 0%R) ->
  (forall t b m, 1 <= t -> at3 delta_x t b m = at3 delta_x' t b m) ->
  (forall t b m, 1 <= t -> at3 delta_y t b m = at3 delta_y' t b m) ->
  Ls_spec self mask delta_x delta_y pi mu_x mu_y sigma_x sigma_y rho_xy = Some v ->
  Ls_spec self mask delta_x' delta_y' pi mu_x mu_y sigma_x sigma_y rho_xy = Some v' ->
  v = v'.
Proof.
  intros Hrows Hzero Hx Hy. unfold Ls_spec. rewrite Hrows, !sum_shift.
  match goal with
  | |- Scalar.div (Scalar.neg (Scalar.add ?a ?r)) _ = _ ->
       Scalar.div (Scalar.neg (Scalar.add ?a' ?r')) _ = _ -> _ =>
      assert (Hrest : r = r');
      [ | rewrite Hrest; destruct a as [x|] eqn:Ha, a' as [x'|] eqn:Ha', r' as [s|];
          cbn; try discriminate ]
  end.
  - apply sum_ext; intros t Ht. apply sum_ext; intros b Hb. do 3 f_equal.
    apply sum_ext; intros m Hm. now rewrite Hx, Hy by lia.
  - apply (masked_row_zero _ _ Hzero) in Ha. apply (masked_row_zero _ _ Hzero) in Ha'.
    subst x x'. congruence.
Qed.

(** ** The training loop *)

Lemma mbind_inv (W A B : Type) (m : M W A) (k : A -> M W B) (s s' : State W) (b : B) :
  mbind m k s = Ok (b, s') -> exists a s1, m s = Ok (a, s1) /\ k a s1 = Ok (b, s').
Proof.
  unfold mbind. destruct (m s) as [[a s1] | e]; cbn [bind]; [eauto | discriminate].
Qed.

Lemma call_inv (W A : Type) (f : W -> result (A * W)) (ev : A -> event)
  (s s' : State W) (a : A) :
  call f ev s = Ok (a, s') ->
  exists w, f (world s) = Ok (a, w) /\ s' = mkState w (log s ++ [ev a]).
Proof.
  unfold call. destruct (f (world s)) as [[a0 w] | e]; cbn [bind]; [ | discriminate].
  intros H. injection H as -> <-. eauto.
Qed.

Lemma lift_inv (W A : Type) (r : result A) (s s' : State W) (a : A) :
  lift r s = Ok (a, s') -> r = Ok a /\ s' = s.
Proof.
  unfold lift. destruct r as [a0 | e]; cbn [bind]; [ | discriminate].
  intros H. injection H as -> <-. auto.
Qed.

Lemma mret_inv (W A : Type) (a a' : A) (s s' : State W) :
  mret a s = Ok (a', s') -> a' = a /\ s' = s.
Proof. unfold mret. intros H. injection H as <- <-. auto. Qed.

Ltac minv :=
  repeat match goal with
         | H : mbind _ _ _ = Ok _ |- _ =>
             apply mbind_inv in H; destruct H as (? & ? & ? & H)
         | H : call _ _ _ = Ok _ |- _ =>
             apply call_inv in H; destruct H as (? & ? & ->)
         | H : lift _ _ = Ok _ |- _ =>
             apply lift_inv in H; destruct H as (? & ->)
         | H : mret _ _ = Ok _ |- _ =>
             apply mret_inv in H; destruct H as (? & ->)
         | H : (let '(_, _) := ?p in _) _ = Ok _ |- _ => destruct p
         | H : (match ?p with (_, _) => _ end) _ = Ok _ |- _ => destruct p
         end.

Lemma MSELoss_inv (input target : Tensor1) (l : scalar) :
  Torch.MSELoss input target = Ok l ->
  len1 input = len1 target
  /\ l = Scalar.div
           (Scalar.sum (len1 input)
              (fun i => Scalar.pow (Scalar.sub (at1 input i) (at1 target i)) 2))
           (const (INR (len1 input))).
Proof.
  unfold Torch.MSELoss. destruct (Nat.eqb_spec (len1 input) (len1 target)); [ | discriminate].
  intros H. injection H as <-. auto.
Qed.

Lemma stack2_dim0_repeat (x : Tensor2) (n : nat) :
  0 < n ->
  Torch.stack2_dim0 (repeat x n)
  = Ok (mkT3 n (rows2 x) (cols2 x) (fun i j k => at2 (nth i (repeat x n) x) j k)).
Proof.
  intros Hn. destruct n as [|n]; [lia | ].
  cbn [repeat Torch.stack2_dim0].
  assert (Hall : forallb (Torch.same_shape2 (rows2 x) (cols2 x)) (x :: repeat x n) = true).
  { apply forallb_forall. intros y Hy.
    change (x :: repeat x n) with (repeat x (S n)) in Hy.
    apply repeat_spec in Hy. subst y. unfold Torch.same_shape2.
    now rewrite !Nat.eqb_refl. }
  rewrite Hall. cbn [length]. now rewrite repeat_length.
Qed.

Lemma cat2_inv (x y r : Tensor3) :
  Torch.cat2 x y = Ok r -> dim0 x = dim0 y /\ dim1 x = dim1 y.
Proof.
  unfold Torch.cat2.
  destruct (Nat.eqb_spec (dim0 x) (dim0 y)), (Nat.eqb_spec (dim1 x) (dim1 y));
    cbn [andb]; intros H; try discriminate H. auto.
Qed.

Section TrainFacts.

Variable W : Type.
Variable env : Env W.
Variable self : Model.

(** What a completed iteration has computed and logged. *)
Lemma epoch_inv (i : nat) (s s' : State W) :
  epoch env self i s = Ok (tt, s') ->
  exists (x : EpochValues) mask delta_x delta_y pen_state
         loss_content Ls Lp loss_GAN loss_real loss_fake,
    log s' = log s ++ epoch_events i x
    /\ get_ground_truth self (v_batch x) (v_lengths x)
       = Ok (mask, delta_x, delta_y, pen_state)
    /\ compute_reconstruction_loss self mask delta_x delta_y pen_state
         (g_pi (v_out x)) (g_mu_x (v_out x)) (g_mu_y (v_out x))
         (g_sigma_x (v_out x)) (g_sigma_y (v_out x)) (g_rho_xy (v_out x))
         (g_q (v_out x))
       = Ok (loss_content, Ls, Lp)
    /\ Torch.MSELoss (v_gen_validity x) (Torch.ones1 (batch_size (hps self)))
       = Ok loss_GAN
    /\ Torch.MSELoss (v_real_validity x) (Torch.ones1 (batch_size (hps self)))
       = Ok loss_real
    /\ Torch.MSELoss (v_fake_validity x) (Torch.zeros1 (batch_size (hps self)))
       = Ok loss_fake
    /\ v_loss_G x
       = Scalar.add (Scalar.mul (const (1 - gan_loss_weight (hps self))) loss_content)
                    (Scalar.mul (const (gan_loss_weight (hps self))) loss_GAN)
    /\ v_loss_D x = Scalar.div (Scalar.add loss_real loss_fake) (const 2)
    /\ size3 (v_batch x) = (N_max self + 1, batch_size (hps self), 5).
Proof.
  unfold epoch. intros H. minv.
  match goal with
  | Hb : env_get_batch _ _ _ = Ok (?b, ?l, _),
    Hg : env_generator _ ?inp _ _ _ = Ok (?o, _),
    Hs : env_generate_sequences_from_distributions _ _ _ = Ok (?gs, _),
    H1 : Torch.MSELoss ?v1 (Torch.ones1 _) = Ok ?l1,
    H2 : Torch.MSELoss ?v2 (Torch.ones1 _) = Ok ?l2,
    H3 : Torch.MSELoss ?v3 (Torch.zeros1 _) = Ok ?l3,
    Hgt : get_ground_truth _ _ _ = Ok (?m, ?dx, ?dy, ?ps),
    Hrl : compute_reconstruction_loss _ _ _ _ _ _ _ _ _ _ _ _ = Ok (?lc, ?ls, ?lp),
    Hbw : env_backward _ G ?lG _ = _,
    Hbd : env_backward _ D ?lD _ = _ |- _ =>
      tryif constr_eq l1 l2 then fail else
      exists (mkEpochValues b l inp o gs v1 v2 v3 lG lD), m, dx, dy, ps, lc, ls, lp, l1, l2, l3
  end.
  unfold epoch_events, batch_fetch, generator_update, discriminator_update, logging,
    periodic_save.
  cbn [v_batch v_lengths v_inputs v_out v_generated_sequences v_gen_validity
       v_real_validity v_fake_validity v_loss_G v_loss_D].
  repeat split; try assumption.
  - destruct (i mod 100 =? 0); minv; cbn [log world fst snd];
      rewrite <- ?app_assoc; reflexivity.
  - match goal with
    | Hz : Torch.stack2_dim0 _ = Ok ?zs, Hc : Torch.cat2 ?b ?zs = Ok _,
      Hgt : get_ground_truth _ ?b _ = Ok _ |- size3 ?b = _ =>
        rewrite stack2_dim0_repeat in Hz by lia; injection Hz as <-;
        apply cat2_inv in Hc; destruct Hc as [Hc0 Hc1];
        apply get_ground_truth_inv in Hgt; destruct Hgt as (_ & Hf & _);
        cbn [dim0 dim1 Torch.zeros2 rows2 cols2] in Hc0, Hc1;
        unfold size3; now rewrite Hc0, Hc1, Hf
    end.
Qed.



End TrainFacts.

Lemma view_app (A : Type) (f : event -> option A) (l1 l2 : list event) :
  view f (l1 ++ l2) = view f l1 ++ view f l2.
Proof.
  induction l1 as [|e l1 IH]; cbn; [reflexivity | ].
  destruct (f e); cbn; now rewrite IH.
Qed.

Lemma view_epoch_events (i : nat) (x : EpochValues) :
  view update_view (epoch_events i x) = one_iteration.
Proof.
  unfold epoch_events, periodic_save. destruct (i mod 100 =? 0); reflexivity.
Qed.

Lemma view_concat (A : Type) (f : event -> option A) (block : list A)
  (indices : list nat) (segs : list (list event)) :
  Forall2 (fun _ seg => view f seg = block) indices segs ->
  view f (concat segs) = concat (repeat block (length indices)).
Proof.
  induction 1 as [|i seg indices segs Hseg _ IH]; cbn; [reflexivity | ].
  now rewrite view_app, Hseg, IH.
Qed.

Lemma MSELoss_mean_squared_error_ones (v : Tensor1) (n : nat) (l : scalar) :
  Torch.MSELoss v (Torch.ones1 n) = Ok l -> len1 v = n /\ l = mean_squared_error v 1.
Proof. intros H. apply MSELoss_inv in H. exact H. Qed.

Lemma MSELoss_mean_squared_error_zeros (v : Tensor1) (n : nat) (l : scalar) :
  Torch.MSELoss v (Torch.zeros1 n) = Ok l -> len1 v = n /\ l = mean_squared_error v 0.
Proof. intros H. apply MSELoss_inv in H. exact H. Qed.


(** ** Where the losses are numbers *)

Lemma div_some_inv (x y : scalar) (v : R) :
  Scalar.div x y = Some v -> exists a b, x = Some a /\ y = Some b /\ b <> 0%R.
Proof.
  destruct x as [a|], y as [b|]; cbn; try discriminate.
  destruct (Req_dec_T b 0); [discriminate | eauto].
Qed.

Lemma neg_some_inv (x : scalar) (v : R) :
  Scalar.neg x = Some v -> exists a, x = Some a.
Proof. destruct x; cbn; [eauto | discriminate]. Qed.

Lemma mul_some_inv (x y : scalar) (v : R) :
  Scalar.mul x y = Some v -> exists a b, x = Some a /\ y = Some b.
Proof. destruct x, y; cbn; try discriminate; eauto. Qed.

Lemma log_some_inv (x : scalar) (v : R) :
  Scalar.log x = Some v -> exists r, x = Some r /\ (0 < r)%R.
Proof.
  destruct x as [r|]; cbn; [ | discriminate].
  destruct (Rlt_dec 0 r); [eauto | discriminate].
Qed.

Lemma log_some (r : R) : (0 < r)%R -> Scalar.log (Some r) = Some (ln r).
Proof. intros H. cbn. destruct (Rlt_dec 0 r); [reflexivity | contradiction]. Qed.

Lemma loss_quotient_some (x : scalar) (n : nat) (a : R) :
  x = Some a -> n <> 0 -> exists v, Scalar.div (Scalar.neg x) (float n) = Some v.
Proof.
  intros -> Hn. cbn. destruct (Req_dec_T (INR n) 0) as [H0 | H0]; [ | eauto].
  exfalso. exact (not_0_INR n Hn H0).
Qed.

Lemma Lp_spec_some_inv (self : Model) (pen_state q : Tensor3) (v : R) :
  Lp_spec self pen_state q = Some v ->
  forall t b c, t < dim0 pen_state -> b < dim1 pen_state -> c < dim2 pen_state ->
    exists r, at3 q t b c = Some r /\ (0 < r)%R.
Proof.
  unfold Lp_spec. intros H t b c Ht Hb Hc.
  apply div_some_inv in H. destruct H as (a & _ & H & _).
  apply neg_some_inv in H. destruct H as [s0 H].
  destruct (sum_some_inv _ H Ht) as [s1 H1]. cbn beta in H1.
  destruct (sum_some_inv _ H1 Hb) as [s2 H2]. cbn beta in H2.
  destruct (sum_some_inv _ H2 Hc) as [s3 H3]. cbn beta in H3.
  apply mul_some_inv in H3. destruct H3 as (x & y & _ & Hlog).
  apply log_some_inv in Hlog. exact Hlog.
Qed.

Lemma Lp_spec_some (self : Model) (pen_state q : Tensor3) :
  (forall t b c, t < dim0 pen_state -> b < dim1 pen_state -> c < dim2 pen_state ->
     exists r y, at3 q t b c = Some r /\ (0 < r)%R /\ at3 pen_state t b c = Some y) ->
  (N_max self + 1) * batch_size (hps self) <> 0 ->
  exists v, Lp_spec self pen_state q = Some v.
Proof.
  intros Hq Hn. unfold Lp_spec.
  destruct (@sum_some (dim0 pen_state) (fun t =>
              Scalar.sum (dim1 pen_state) (fun b =>
                Scalar.sum (dim2 pen_state) (fun c =>
                  Scalar.mul (at3 pen_state t b c) (Scalar.log (at3 q t b c))))))
    as [s Hs].
  { intros t Ht. apply sum_some. intros b Hb. apply sum_some. intros c Hc.
    destruct (Hq t b c Ht Hb Hc) as (r & y & -> & Hr & ->).
    rewrite (log_some Hr). cbn. eauto. }
  exact (loss_quotient_some Hs Hn).
Qed.

Lemma Ls_spec_some (self : Model) (mask : Tensor2)
  (delta_x delta_y pi mu_x mu_y sigma_x sigma_y rho_xy : Tensor3) :
  (0 < epsilon (hps self))%R ->
  (forall t b, t < rows2 mask -> b < cols2 mask ->
     exists m s,
       at2 mask t b = Some m
       /\ Scalar.sum (dim2 pi) (fun k =>
            Scalar.mul (at3 pi t b k)
              (bivariate_normal_density
                 (at3 delta_x t b k) (at3 delta_y t b k) (at3 mu_x t b k)
                 (at3 mu_y t b k) (at3 sigma_x t b k) (at3 sigma_y t b k)
                 (at3 rho_xy t b k))) = Some s
       /\ (0 <= s)%R) ->
  (N_max self + 1) * batch_size (hps self) <> 0 ->
  exists v, Ls_spec self mask delta_x delta_y pi mu_x mu_y sigma_x sigma_y rho_xy = Some v.
Proof.
  intros Heps Hmix Hn. unfold Ls_spec.
  match goal with
  | |- exists v, Scalar.div (Scalar.neg (Scalar.sum ?n ?f)) _ = _ =>
      destruct (@sum_some n f) as [s Hs]
  end.
  { intros t Ht. apply sum_some. intros b Hb.
    destruct (Hmix t b Ht Hb) as (m & x & -> & -> & Hx).
    cbn [Scalar.add Scalar.lift2 const]. rewrite log_some by lra. cbn. eauto. }
  exact (loss_quotient_some Hs Hn).
Qed.

(** * The properties that the specification states *)

(** C1. On operands of one shape, [compute_bivariate_normal_pdf] returns the
    tensor of that shape whose every entry is the density of the bivariate
    normal distribution, as the specification writes it, at the
    corresponding entries of the operands. *)
Theorem compute_bivariate_normal_pdf_density
  (delta_x delta_y mu_x mu_y sigma_x sigma_y rho_xy : Tensor3) (T B M : nat) :
  size3 delta_x = (T, B, M) -> size3 delta_y = (T, B, M) ->
  size3 mu_x = (T, B, M) -> size3 mu_y = (T, B, M) ->
  size3 sigma_x = (T, B, M) -> size3 sigma_y = (T, B, M) -> size3 rho_xy = (T, B, M) ->
  exists r,
    compute_bivariate_normal_pdf delta_x delta_y mu_x mu_y sigma_x sigma_y rho_xy = Ok r
    /\ size3 r = (T, B, M)
    /\ forall i j k, i < T -> j < B -> k < M ->
         at3 r i j k
         = bivariate_normal_density (at3 delta_x i j k) (at3 delta_y i j k)
             (at3 mu_x i j k) (at3 mu_y i j k) (at3 sigma_x i j k) (at3 sigma_y i j k)
             (at3 rho_xy i j k).
Proof.
  intros H1 H2 H3 H4 H5 H6 H7.
  destruct (compute_bivariate_normal_pdf_entries H1 H2 H3 H4 H5 H6 H7)
    as (r & Hr & Hsize & Hentries).
  exists r. split; [exact Hr | ]. split; [exact Hsize | ].
  intros i j k Hi Hj Hk. rewrite Hentries by assumption. apply pdf_entry_density.
Qed.

Lemma compute_bivariate_normal_pdf_density_witness :
  exists r,
    compute_bivariate_normal_pdf (full3 2 1 2 1) (full3 2 1 2 1) (full3 2 1 2 0)
      (full3 2 1 2 0) (full3 2 1 2 1) (full3 2 1 2 1) (full3 2 1 2 0) = Ok r
    /\ size3 r = (2, 1, 2)
    /\ forall i j k, i < 2 -> j < 1 -> k < 2 ->
         at3 r i j k
         = bivariate_normal_density (Some 1%R) (Some 1%R) (Some 0%R) (Some 0%R)
             (Some 1%R) (Some 1%R) (Some 0%R).
Proof.
  apply (@compute_bivariate_normal_pdf_density
           (full3 2 1 2 1) (full3 2 1 2 1) (full3 2 1 2 0) (full3 2 1 2 0)
           (full3 2 1 2 1) (full3 2 1 2 1) (full3 2 1 2 0) 2 1 2);
    reflexivity.
Defined.

(** C2. On operands of one shape, [compute_reconstruction_loss] returns the
    triple [(Ls + Lp, Ls, Lp)], where [Ls] is minus the sum of the mask
    times the logarithm of epsilon plus the mixture of densities, and [Lp]
    is minus the sum of the pen state times the logarithm of [q], each
    divided by [(N_max + 1) * batch_size]. *)
Theorem compute_reconstruction_loss_triple (self : Model) (mask : Tensor2)
  (delta_x delta_y pen_state pi mu_x mu_y sigma_x sigma_y rho_xy q : Tensor3)
  (T B M P : nat) :
  size2 mask = (T, B) ->
  size3 delta_x = (T, B, M) -> size3 delta_y = (T, B, M) -> size3 pi = (T, B, M) ->
  size3 mu_x = (T, B, M) -> size3 mu_y = (T, B, M) ->
  size3 sigma_x = (T, B, M) -> size3 sigma_y = (T, B, M) -> size3 rho_xy = (T, B, M) ->
  size3 pen_state = (T, B, P) -> size3 q = (T, B, P) ->
  compute_reconstruction_loss self mask delta_x delta_y pen_state pi mu_x mu_y
    sigma_x sigma_y rho_xy q
  = Ok (Scalar.add
          (Ls_spec self mask delta_x delta_y pi mu_x mu_y sigma_x sigma_y rho_xy)
          (Lp_spec self pen_state q),
        Ls_spec self mask delta_x delta_y pi mu_x mu_y sigma_x sigma_y rho_xy,
        Lp_spec self pen_state q).
Proof.
  intros. eapply compute_reconstruction_loss_eq; eassumption.
Qed.

Lemma compute_reconstruction_loss_triple_witness :
  compute_reconstruction_loss example_model (full2 2 1 1) (full3 2 1 2 1) (full3 2 1 2 1)
    (full3 2 1 3 0) (g_pi example_out) (g_mu_x example_out) (g_mu_y example_out)
    (g_sigma_x example_out) (g_sigma_y example_out) (g_rho_xy example_out)
    (g_q example_out)
  = Ok (Scalar.add
          (Ls_spec example_model (full2 2 1 1) (full3 2 1 2 1) (full3 2 1 2 1)
             (g_pi example_out) (g_mu_x example_out) (g_mu_y example_out)
             (g_sigma_x example_out) (g_sigma_y example_out) (g_rho_xy example_out))
          (Lp_spec example_model (full3 2 1 3 0) (g_q example_out)),
        Ls_spec example_model (full2 2 1 1) (full3 2 1 2 1) (full3 2 1 2 1)
          (g_pi example_out) (g_mu_x example_out) (g_mu_y example_out)
          (g_sigma_x example_out) (g_sigma_y example_out) (g_rho_xy example_out),
        Lp_spec example_model (full3 2 1 3 0) (g_q example_out)).
Proof.
  apply (@compute_reconstruction_loss_triple example_model (full2 2 1 1)
           (full3 2 1 2 1) (full3 2 1 2 1) (full3 2 1 3 0)
           (g_pi example_out) (g_mu_x example_out) (g_mu_y example_out)
           (g_sigma_x example_out) (g_sigma_y example_out) (g_rho_xy example_out)
           (g_q example_out) 2 1 2 3);
    reflexivity.
Defined.

(** C8, over the real numbers.  On operands of one shape, at every entry: if
    the seven operands are real numbers with [sigma_x <> 0], [sigma_y <> 0]
    and [rho_xy ^ 2 < 1], then each of the four divisors of [compute_bivariate_normal_pdf] is not
    zero, the argument of its square root is positive, and the entry of the
    result is a real number; and the function has no guard: whenever the
    entry of the result is a real number, the operands were real numbers
    that satisfy the three conditions. *)
Theorem compute_bivariate_normal_pdf_well_defined
  (delta_x delta_y mu_x mu_y sigma_x sigma_y rho_xy : Tensor3) (T B M : nat) :
  size3 delta_x = (T, B, M) -> size3 delta_y = (T, B, M) ->
  size3 mu_x = (T, B, M) -> size3 mu_y = (T, B, M) ->
  size3 sigma_x = (T, B, M) -> size3 sigma_y = (T, B, M) -> size3 rho_xy = (T, B, M) ->
  exists r,
    compute_bivariate_normal_pdf delta_x delta_y mu_x mu_y sigma_x sigma_y rho_xy = Ok r
    /\ forall i j k, i < T -> j < B -> k < M ->
         (forall dx dy mx my sx sy rho : R,
            at3 delta_x i j k = Some dx -> at3 delta_y i j k = Some dy ->
            at3 mu_x i j k = Some mx -> at3 mu_y i j k = Some my ->
            at3 sigma_x i j k = Some sx -> at3 sigma_y i j k = Some sy ->
            at3 rho_xy i j k = Some rho ->
            sx <> 0%R -> sy <> 0%R -> (rho ^ 2 < 1)%R ->
            sx <> 0%R /\ sy <> 0%R
            /\ (-2 * (1 - rho ^ 2))%R <> 0%R
            /\ (2 * PI * sx * sy * R_sqrt.sqrt (1 - rho ^ 2))%R <> 0%R
            /\ (0 < 1 - rho ^ 2)%R
            /\ exists v, at3 r i j k = Some v)
         /\ (forall v, at3 r i j k = Some v ->
               exists dx dy mx my sx sy rho : R,
                 at3 delta_x i j k = Some dx /\ at3 delta_y i j k = Some dy /\
                 at3 mu_x i j k = Some mx /\ at3 mu_y i j k = Some my /\
                 at3 sigma_x i j k = Some sx /\ at3 sigma_y i j k = Some sy /\
                 at3 rho_xy i j k = Some rho /\
                 sx <> 0%R /\ sy <> 0%R /\ (rho ^ 2 < 1)%R).
Proof.
  intros H1 H2 H3 H4 H5 H6 H7.
  destruct (compute_bivariate_normal_pdf_entries H1 H2 H3 H4 H5 H6 H7)
    as (r & Hr & _ & Hentries).
  exists r. split; [exact Hr | ].
  intros i j k Hi Hj Hk. rewrite Hentries by assumption. split.
  - intros dx dy mx my sx sy rho -> -> -> -> -> -> -> Hx Hy Hrho.
    repeat split; try assumption; try lra.
    + now apply pdf_const_neq_0.
    + rewrite pdf_entry_defined by assumption. eauto.
  - intros v Hv. exact (pdf_entry_some_inv _ _ _ _ _ _ _ Hv).
Qed.

Lemma compute_bivariate_normal_pdf_well_defined_witness :
  exists r,
    compute_bivariate_normal_pdf (full3 2 1 2 1) (full3 2 1 2 1) (full3 2 1 2 0)
      (full3 2 1 2 0) (full3 2 1 2 1) (full3 2 1 2 1) (full3 2 1 2 0) = Ok r
    /\ exists v, at3 r 0 0 0 = Some v.
Proof.
  destruct (@compute_bivariate_normal_pdf_well_defined
              (full3 2 1 2 1) (full3 2 1 2 1) (full3 2 1 2 0) (full3 2 1 2 0)
              (full3 2 1 2 1) (full3 2 1 2 1) (full3 2 1 2 0) 2 1 2
              eq_refl eq_refl eq_refl eq_refl eq_refl eq_refl eq_refl)
    as (r & Hr & H).
  exists r. split; [exact Hr | ].
  destruct (H 0 0 0 ltac:(lia) ltac:(lia) ltac:(lia)) as [Hdef _].
  apply (Hdef 1 1 0 0 1 1 0)%R; try reflexivity; lra.
Defined.

(** In binary32 the deviations [1e-23] are not zero and [rho_xy = 0] has a
    square below 1, yet the divisor of line 48 is rounded to [0.0] and
    [const] is infinite. *)
Lemma compute_bivariate_normal_pdf_well_defined_counterexample :
  Float32.tiny <> Float32.zero
  /\ SpecFloat.SFltb (Float32.mul Float32.zero Float32.zero) Float32.one = true
  /\ SpecFloat.SFltb Float32.zero
       (Float32.sub Float32.one (Float32.mul Float32.zero Float32.zero)) = true
  /\ Float32.const_divisor Float32.tiny Float32.tiny Float32.zero = Float32.zero
  /\ Float32.const Float32.tiny Float32.tiny Float32.zero
     = SpecFloat.S754_infinity false.
Proof.
  repeat split; try discriminate; vm_compute; reflexivity.
Qed.

(** C9. The logarithm of the stroke loss has epsilon added to its argument:
    with a positive epsilon, [Ls] is a real number as soon as every mixture
    sum is a real number that is not negative, zero included.  The
    logarithm of the pen loss has not: [Lp] is a real number only if every
    entry of [q] is strictly positive, and it is one if they are and the pen
    states are real numbers. *)
Theorem compute_reconstruction_loss_logarithms (self : Model) (mask : Tensor2)
  (delta_x delta_y pen_state pi mu_x mu_y sigma_x sigma_y rho_xy q : Tensor3)
  (T B M P : nat) (loss Ls Lp : scalar) :
  size2 mask = (T, B) ->
  size3 delta_x = (T, B, M) -> size3 delta_y = (T, B, M) -> size3 pi = (T, B, M) ->
  size3 mu_x = (T, B, M) -> size3 mu_y = (T, B, M) ->
  size3 sigma_x = (T, B, M) -> size3 sigma_y = (T, B, M) -> size3 rho_xy = (T, B, M) ->
  size3 pen_state = (T, B, P) -> size3 q = (T, B, P) ->
  compute_reconstruction_loss self mask delta_x delta_y pen_state pi mu_x mu_y
    sigma_x sigma_y rho_xy q = Ok (loss, Ls, Lp) ->
  ((0 < epsilon (hps self))%R ->
   (forall t b, t < T -> b < B ->
      exists m s,
        at2 mask t b = Some m
        /\ Scalar.sum M (fun k =>
             Scalar.mul (at3 pi t b k)
               (bivariate_normal_density
                  (at3 delta_x t b k) (at3 delta_y t b k) (at3 mu_x t b k)
                  (at3 mu_y t b k) (at3 sigma_x t b k) (at3 sigma_y t b k)
                  (at3 rho_xy t b k))) = Some s
        /\ (0 <= s)%R) ->
   (N_max self + 1) * batch_size (hps self) <> 0 ->
   exists v, Ls = Some v)
  /\ (forall v, Lp = Some v ->
        forall t b c, t < T -> b < B -> c < P ->
          exists r, at3 q t b c = Some r /\ (0 < r)%R)
  /\ ((forall t b c, t < T -> b < B -> c < P ->
         exists r y, at3 q t b c = Some r /\ (0 < r)%R /\ at3 pen_state t b c = Some y) ->
      (N_max self + 1) * batch_size (hps self) <> 0 ->
      exists v, Lp = Some v).
Proof.
  intros Hm H1 H2 H3 H4 H5 H6 H7 H8 H9 H10 Hloss.
  rewrite (compute_reconstruction_loss_eq self Hm H1 H2 H3 H4 H5 H6 H7 H8 H9 H10) in Hloss.
  injection Hloss as _ <- <-.
  unfold size2, size3 in *.
  injection Hm as HmT HmB. injection H3 as _ _ HpiM. injection H9 as HpT HpB HpP.
  split; [ | split].
  - intros Heps Hmix Hn. apply Ls_spec_some; try assumption.
    rewrite HmT, HmB, HpiM. exact Hmix.
  - intros v Hv t b c Ht Hb Hc.
    apply (Lp_spec_some_inv _ _ _ Hv); lia.
  - intros Hq Hn. apply Lp_spec_some; try assumption.
    rewrite HpT, HpB, HpP. exact Hq.
Qed.

Lemma compute_reconstruction_loss_logarithms_witness :
  exists loss Ls Lp,
    compute_reconstruction_loss example_model (full2 2 1 1) (full3 2 1 2 1) (full3 2 1 2 1)
      (full3 2 1 3 0) (g_pi example_out) (g_mu_x example_out) (g_mu_y example_out)
      (g_sigma_x example_out) (g_sigma_y example_out) (g_rho_xy example_out)
      (g_q example_out) = Ok (loss, Ls, Lp)
    /\ exists v, Lp = Some v.
Proof.
  pose proof (@compute_reconstruction_loss_eq example_model (full2 2 1 1)
                (full3 2 1 2 1) (full3 2 1 2 1) (full3 2 1 3 0)
                (g_pi example_out) (g_mu_x example_out) (g_mu_y example_out)
                (g_sigma_x example_out) (g_sigma_y example_out) (g_rho_xy example_out)
                (g_q example_out) 2 1 2 3
                eq_refl eq_refl eq_refl eq_refl eq_refl eq_refl eq_refl eq_refl eq_refl
                eq_refl eq_refl) as E.
  eexists _, _, _. split; [exact E | ].
  destruct (@compute_reconstruction_loss_logarithms example_model (full2 2 1 1)
              (full3 2 1 2 1) (full3 2 1 2 1) (full3 2 1 3 0)
              (g_pi example_out) (g_mu_x example_out) (g_mu_y example_out)
              (g_sigma_x example_out) (g_sigma_y example_out) (g_rho_xy example_out)
              (g_q example_out) 2 1 2 3 _ _ _
              eq_refl eq_refl eq_refl eq_refl eq_refl eq_refl eq_refl eq_refl eq_refl
              eq_refl eq_refl E) as (_ & _ & Hsuff).
  apply Hsuff.
  - intros t b c _ _ _. exists (1 / 3)%R, 0%R. repeat split. lra.
  - cbn. lia.
Defined.

(** C3. Whenever [get_ground_truth] returns, on sequence lengths that are at
    most [N_max]: the mask has [N_max + 1] rows and one column per batch
    element; the column of a sequence is 1 at the rows 1 to its length,
    which are all rows of the mask, and 0 at every other row, and a column
    without a sequence is 0; row 0 is 0 in every column; and the stroke loss
    [Ls] computed with this mask does not depend on the targets [delta_x]
    and [delta_y] at time step 0. *)
Theorem get_ground_truth_mask (self : Model) (batch : Tensor3) (sequence_lengths : list nat)
  (mask : Tensor2) (delta_x delta_y pen_state : Tensor3) :
  (forall sequence_length, In sequence_length sequence_lengths ->
                           sequence_length <= N_max self) ->
  get_ground_truth self batch sequence_lengths = Ok (mask, delta_x, delta_y, pen_state) ->
  size2 mask = (N_max self + 1, dim1 batch)
  /\ (forall t b, t < N_max self + 1 -> b < dim1 batch ->
        at2 mask t b = mask_spec sequence_lengths t b)
  /\ (forall b sequence_length,
        nth_error sequence_lengths b = Some sequence_length ->
        b < dim1 batch
        /\ forall t, t < N_max self + 1 ->
             at2 mask t b = if (1 <=? t) && (t <=? sequence_length) then Some 1%R
                            else Some 0%R)
  /\ (forall b sequence_length t,
        nth_error sequence_lengths b = Some sequence_length ->
        1 <= t <= sequence_length -> t < N_max self + 1 /\ at2 mask t b = Some 1%R)
  /\ (forall b, b < dim1 batch -> at2 mask 0 b = Some 0%R)
  /\ (forall (M P : nat)
             (targets_x targets_y targets_x' targets_y' pen pi mu_x mu_y
                sigma_x sigma_y rho_xy q : Tensor3)
             (loss loss' Lp Lp' : scalar) (Ls Ls' : R),
        size3 targets_x = (N_max self + 1, dim1 batch, M) ->
        size3 targets_y = (N_max self + 1, dim1 batch, M) ->
        size3 targets_x' = (N_max self + 1, dim1 batch, M) ->
        size3 targets_y' = (N_max self + 1, dim1 batch, M) ->
        size3 pi = (N_max self + 1, dim1 batch, M) ->
        size3 mu_x = (N_max self + 1, dim1 batch, M) ->
        size3 mu_y = (N_max self + 1, dim1 batch, M) ->
        size3 sigma_x = (N_max self + 1, dim1 batch, M) ->
        size3 sigma_y = (N_max self + 1, dim1 batch, M) ->
        size3 rho_xy = (N_max self + 1, dim1 batch, M) ->
        size3 pen = (N_max self + 1, dim1 batch, P) ->
        size3 q = (N_max self + 1, dim1 batch, P) ->
        (forall t b m, 1 <= t -> at3 targets_x t b m = at3 targets_x' t b m) ->
        (forall t b m, 1 <= t -> at3 targets_y t b m = at3 targets_y' t b m) ->
        compute_reconstruction_loss self mask targets_x targets_y pen pi mu_x mu_y
          sigma_x sigma_y rho_xy q = Ok (loss, Some Ls, Lp) ->
        compute_reconstruction_loss self mask targets_x' targets_y' pen pi mu_x mu_y
          sigma_x sigma_y rho_xy q = Ok (loss', Some Ls', Lp') ->
        Ls = Ls').
Proof.
  intros Hmax H.
  destruct (mask_entries_of_ground_truth _ _ _ H) as (Hsize & Hlen & Hat).
  assert (Hzero : forall b, at2 mask 0 b = Some 0%R).
  { intros b. rewrite Hat. unfold mask_spec.
    destruct (nth_error sequence_lengths b); reflexivity. }
  split; [exact Hsize | ]. split; [intros; apply Hat | ]. split; [ | split; [ | split]].
  - intros b len Hnth. split.
    + assert (Hb : nth_error sequence_lengths b <> None) by congruence.
      apply nth_error_Some in Hb. lia.
    + intros t _. rewrite Hat. unfold mask_spec. now rewrite Hnth.
  - intros b len t Hnth Ht.
    assert (Hle : len <= N_max self) by (apply Hmax; eapply nth_error_In; eassumption).
    split; [lia | ]. rewrite Hat. unfold mask_spec. rewrite Hnth.
    replace (1 <=? t) with true by (symmetry; apply Nat.leb_le; lia).
    replace (t <=? len) with true by (symmetry; apply Nat.leb_le; lia).
    reflexivity.
  - intros b _. apply Hzero.
  - intros M P tx ty tx' ty' pen pi mu_x mu_y sigma_x sigma_y rho_xy q
      loss loss' Lp Lp' Ls Ls' S1 S2 S3 S4 S5 S6 S7 S8 S9 S10 S11 S12 Hx Hy E E'.
    rewrite (compute_reconstruction_loss_eq self Hsize S1 S2 S5 S6 S7 S8 S9 S10 S11 S12)
      in E.
    rewrite (compute_reconstruction_loss_eq self Hsize S3 S4 S5 S6 S7 S8 S9 S10 S11 S12)
      in E'.
    injection E as _ E _. injection E' as _ E' _.
    unfold size2 in Hsize. injection Hsize as Hrows Hcols.
    rewrite Nat.add_1_r in Hrows.
    eapply Ls_spec_first_step;
      [exact Hrows | intros; apply Hzero | exact Hx | exact Hy | exact E | exact E'].
Qed.

Lemma example_lengths_bounded :
  forall sequence_length, In sequence_length example_lengths ->
                          sequence_length <= N_max example_model.
Proof. intros len [<- | []]. cbn. lia. Qed.

Lemma get_ground_truth_mask_witness :
  exists mask delta_x delta_y pen_state,
    get_ground_truth example_model example_batch example_lengths
    = Ok (mask, delta_x, delta_y, pen_state)
    /\ size2 mask = (2, 1) /\ at2 mask 1 0 = Some 1%R /\ at2 mask 0 0 = Some 0%R.
Proof.
  destruct (@get_ground_truth_ok example_model example_batch example_lengths)
    as (mask & delta_x & delta_y & pen_state & E); try (cbn; lia).
  exists mask, delta_x, delta_y, pen_state. split; [exact E | ].
  destruct (get_ground_truth_mask example_model example_batch example_lengths
              example_lengths_bounded E) as (Hsize & _ & _ & Hone & Hzero & _).
  split; [exact Hsize | ]. split.
  - apply (Hone 0 1 1 eq_refl). lia.
  - apply Hzero. cbn. lia.
Defined.

(** C5, as the code has it.  Whenever [get_ground_truth] returns: the
    returned pen state has as many time steps as the batch, which are
    [N_max + 1] for a batch of [N_max + 1] time steps; at the last of them
    it is [(0, 0, 1)] for every batch element, and the offsets at that step
    are 0, which together is the row [[0, 0, 0, 0, 1]]; and every earlier
    time step [t] holds the step [t + 1] of the batch, so that one step,
    and only one, has been added after the last step of the batch. *)
Theorem get_ground_truth_end_of_sequence (self : Model) (batch : Tensor3)
  (sequence_lengths : list nat) (mask : Tensor2) (delta_x delta_y pen_state : Tensor3) :
  get_ground_truth self batch sequence_lengths = Ok (mask, delta_x, delta_y, pen_state) ->
  size3 pen_state = (dim0 batch, dim1 batch, 3)
  /\ (dim0 batch = N_max self + 1 -> size3 pen_state = (N_max self + 1, dim1 batch, 3))
  /\ (forall t b, t + 1 = dim0 batch ->
        at3 pen_state t b 0 = Some 0%R
        /\ at3 pen_state t b 1 = Some 0%R
        /\ at3 pen_state t b 2 = Some 1%R
        /\ forall m, at3 delta_x t b m = Some 0%R /\ at3 delta_y t b m = Some 0%R)
  /\ (forall t b, t + 1 < dim0 batch ->
        (forall m, at3 delta_x t b m = at3 batch (t + 1) b 0
                   /\ at3 delta_y t b m = at3 batch (t + 1) b 1)
        /\ (forall c, c < 3 -> at3 pen_state t b c = at3 batch (t + 1) b (c + 2))).
Proof.
  intros H. apply get_ground_truth_inv in H.
  destruct H as (_ & _ & _ & _ & _ & _ & Hsize & Hx & Hy & Hp).
  rewrite Nat.add_sub in Hsize.
  assert (Hlast : forall t b c, t + 1 = dim0 batch ->
                                extended batch (t + 1) b c
                                = const (nth c [0; 0; 0; 0; 1]%R 0%R)).
  { intros t b c Ht. unfold extended. rewrite Ht, Nat.ltb_irrefl. reflexivity. }
  assert (Hearly : forall t b c, t + 1 < dim0 batch ->
                                 extended batch (t + 1) b c = at3 batch (t + 1) b c).
  { intros t b c Ht. unfold extended.
    replace (t + 1 <? dim0 batch) with true by (symmetry; apply Nat.ltb_lt; lia).
    reflexivity. }
  split; [exact Hsize | ]. split; [ | split].
  - intros Hrows. now rewrite Hsize, Hrows.
  - intros t b Ht. rewrite !Hp by lia. rewrite !Hlast by assumption.
    repeat split; try reflexivity;
      rewrite ?Hx, ?Hy, Hlast by assumption; reflexivity.
  - intros t b Ht. split.
    + intros m. rewrite Hx, Hy, !Hearly by assumption. auto.
    + intros c Hc. rewrite Hp, Hearly by assumption. reflexivity.
Qed.

Lemma get_ground_truth_end_of_sequence_witness :
  exists mask delta_x delta_y pen_state,
    get_ground_truth example_model example_batch example_lengths
    = Ok (mask, delta_x, delta_y, pen_state)
    /\ size3 pen_state = (2, 1, 3)
    /\ at3 pen_state 1 0 0 = Some 0%R
    /\ at3 pen_state 1 0 1 = Some 0%R
    /\ at3 pen_state 1 0 2 = Some 1%R.
Proof.
  destruct (@get_ground_truth_ok example_model example_batch example_lengths)
    as (mask & delta_x & delta_y & pen_state & E); try (cbn; lia).
  exists mask, delta_x, delta_y, pen_state. split; [exact E | ].
  destruct (@get_ground_truth_end_of_sequence example_model example_batch example_lengths
              mask delta_x delta_y pen_state E) as (Hsize & _ & Hlast & _).
  split; [exact Hsize | ].
  destruct (Hlast 1 0 eq_refl) as (H0 & H1 & H2 & _). auto.
Defined.

(** The pen state of a batch of two time steps has two time steps, not
    [N_max + 1 = 4]. *)
Lemma get_ground_truth_end_of_sequence_counterexample :
  ~ (forall (self : Model) (batch : Tensor3) (sequence_lengths : list nat)
            (mask : Tensor2) (delta_x delta_y pen_state : Tensor3),
       get_ground_truth self batch sequence_lengths
       = Ok (mask, delta_x, delta_y, pen_state) ->
       dim0 pen_state = N_max self + 1).
Proof.
  intros H.
  destruct (@get_ground_truth_ok example_model_three example_batch example_lengths)
    as (mask & delta_x & delta_y & pen_state & E); try (cbn; lia).
  pose proof (H _ _ _ _ _ _ _ E) as Hsteps.
  apply get_ground_truth_inv in E.
  destruct E as (_ & _ & _ & _ & _ & _ & Hsize & _).
  unfold size3 in Hsize. injection Hsize as Hd _ _.
  rewrite Hd in Hsteps. cbn in Hsteps. discriminate Hsteps.
Qed.

(** C10. Whenever [get_ground_truth] returns, [delta_x] and [delta_y] have
    one time step per step of the batch, one column per batch element and
    [num_mixture] mixture components; every component of [delta_x] is
    column 0, and every component of [delta_y] is column 1, of the rows 1
    onward of the extended batch, so that any two components are equal. *)
Theorem get_ground_truth_targets (self : Model) (batch : Tensor3)
  (sequence_lengths : list nat) (mask : Tensor2) (delta_x delta_y pen_state : Tensor3) :
  get_ground_truth self batch sequence_lengths = Ok (mask, delta_x, delta_y, pen_state) ->
  size3 delta_x = (dim0 batch, dim1 batch, num_mixture (hps self))
  /\ size3 delta_y = (dim0 batch, dim1 batch, num_mixture (hps self))
  /\ forall t b m n,
       at3 delta_x t b m = at3 delta_x t b n
       /\ at3 delta_x t b m = extended batch (t + 1) b 0
       /\ at3 delta_y t b m = at3 delta_y t b n
       /\ at3 delta_y t b m = extended batch (t + 1) b 1.
Proof.
  intros H. apply get_ground_truth_inv in H.
  destruct H as (_ & _ & _ & _ & Hsx & Hsy & _ & Hx & Hy & _).
  rewrite Nat.add_sub in Hsx, Hsy.
  split; [exact Hsx | ]. split; [exact Hsy | ].
  intros t b m n. rewrite (Hx t b m), (Hx t b n), (Hy t b m), (Hy t b n). auto.
Qed.

Lemma get_ground_truth_targets_witness :
  exists mask delta_x delta_y pen_state,
    get_ground_truth example_model example_batch example_lengths
    = Ok (mask, delta_x, delta_y, pen_state)
    /\ size3 delta_x = (2, 1, 2)
    /\ at3 delta_x 0 0 0 = at3 delta_x 0 0 1.
Proof.
  destruct (@get_ground_truth_ok example_model example_batch example_lengths)
    as (mask & delta_x & delta_y & pen_state & E); try (cbn; lia).
  exists mask, delta_x, delta_y, pen_state. split; [exact E | ].
  destruct (@get_ground_truth_targets example_model example_batch example_lengths
              mask delta_x delta_y pen_state E) as (Hsize & _ & Heq).
  split; [exact Hsize | ]. exact (proj1 (Heq 0 0 0 1)).
Defined.

(** ** The training loop: its properties *)

Lemma epoch_segment (W : Type) (env : Env W) (self : Model) (i : nat) (s s' : State W) :
  epoch env self i s = Ok (tt, s') ->
  exists seg, log s' = log s ++ seg /\ epoch_with_losses self i seg.
Proof.
  intros H. apply epoch_inv in H.
  destruct H as (x & mask & dx & dy & ps & lc & Ls & Lp & lgan & lreal & lfake
                 & Hlog & Hgt & Hrl & Hgan & Hreal & Hfake & HG & HD & Hsize).
  exists (epoch_events i x). split; [exact Hlog | ].
  exists x, mask, dx, dy, ps, lc, Ls, Lp.
  apply MSELoss_mean_squared_error_ones in Hgan, Hreal.
  apply MSELoss_mean_squared_error_zeros in Hfake.
  destruct Hgan as [_ ->], Hreal as [_ ->], Hfake as [_ ->].
  repeat split; assumption.
Qed.

Lemma epoch_with_losses_events (self : Model) (i : nat) (seg : list event) :
  epoch_with_losses self i seg -> exists x, seg = epoch_events i x.
Proof. intros (x & _ & _ & _ & _ & _ & _ & _ & H & _). eauto. Qed.

(** Every batch that a completed epoch hands to [get_ground_truth] has
    [N_max + 1] time steps, one column per batch element and five features. *)
Lemma epoch_with_losses_batch (self : Model) (i : nat) (seg : list event) :
  epoch_with_losses self i seg ->
  exists x, seg = epoch_events i x
            /\ size3 (v_batch x) = (N_max self + 1, batch_size (hps self), 5).
Proof. intros (x & _ & _ & _ & _ & _ & _ & _ & H & Hs & _). eauto. Qed.


Lemma Forall2_weaken (A B : Type) (P Q : A -> B -> Prop) (l : list A) (l' : list B) :
  (forall a b, P a b -> Q a b) -> Forall2 P l l' -> Forall2 Q l l'.
Proof. intros HPQ. induction 1; constructor; auto. Qed.

(** *** The calls behind the log *)

Lemma replay_app (W : Type) (env : Env W) (self : Model) (w w1 w2 : W)
  (l1 l2 : list event) :
  replay env self w l1 w1 -> replay env self w1 l2 w2 -> replay env self w (l1 ++ l2) w2.
Proof.
  induction 1 as [w | w wa wb e events Hstep _ IH]; intros H2; cbn [app].
  - exact H2.
  - eapply replay_cons; [exact Hstep | exact (IH H2)].
Qed.

(** A completed iteration has made the calls of its events, in their order,
    and no other. *)
Lemma epoch_replay (W : Type) (env : Env W) (self : Model) (i : nat) (s s' : State W) :
  epoch env self i s = Ok (tt, s') ->
  exists events,
    log s' = log s ++ events /\ replay env self (world s) events (world s').
Proof.
  unfold epoch. intros H. minv.
  destruct (i mod 100 =? 0); minv;
    repeat match goal with u : unit |- _ => destruct u end;
    cbn [world log fst snd] in *;
    (eexists; split; [rewrite <- ?app_assoc; cbn [app]; reflexivity | ]);
    repeat (eapply replay_cons; [econstructor; eassumption | ]); apply replay_nil.
Qed.

Lemma epoch_block (W : Type) (env : Env W) (self : Model) (i : nat) (s s' : State W) :
  epoch env self i s = Ok (tt, s') ->
  exists seg,
    log s' = log s ++ seg
    /\ replay env self (world s) seg (world s')
    /\ epoch_with_losses self i seg.
Proof.
  intros H.
  destruct (epoch_replay _ _ _ _ H) as (events & Hlog & Hreplay).
  destruct (epoch_segment _ _ _ _ H) as (seg & Hlog' & Hseg).
  exists seg. split; [exact Hlog' | ]. split; [ | exact Hseg].
  rewrite Hlog in Hlog'. apply app_inv_head in Hlog'. now subst.
Qed.

Lemma for_range_blocks (W : Type) (env : Env W) (self : Model)
  (body : nat -> M W unit) (P : nat -> list event -> Prop) :
  (forall i s s', body i s = Ok (tt, s') ->
     exists seg, log s' = log s ++ seg
                 /\ replay env self (world s) seg (world s') /\ P i seg) ->
  forall n start s s',
    for_range body start n s = Ok (tt, s') ->
    exists segs,
      log s' = log s ++ concat segs
      /\ replay env self (world s) (concat segs) (world s')
      /\ Forall2 P (seq start n) segs.
Proof.
  intros Hbody. induction n as [|n IH]; intros start s s' H; cbn [for_range] in H.
  - apply mret_inv in H. destruct H as [_ ->].
    exists []. cbn. rewrite app_nil_r. repeat split; constructor.
  - apply mbind_inv in H. destruct H as ([] & s1 & Hfirst & Hrest).
    apply Hbody in Hfirst. destruct Hfirst as (seg & Hseg & Hrun & HP).
    apply IH in Hrest. destruct Hrest as (segs & Hsegs & Hruns & HF).
    exists (seg :: segs). split; [ | split].
    + rewrite Hsegs, Hseg. cbn [concat]. now rewrite app_assoc.
    + cbn [concat]. exact (replay_app Hrun Hruns).
    + cbn [seq]. constructor; assumption.
Qed.

(** The first [k] iterations of the loop of [train]. *)
Lemma loop_blocks (W : Type) (env : Env W) (self : Model) (k : nat) (s s' : State W) :
  for_range (epoch env self) 0 k s = Ok (tt, s') ->
  exists segs,
    log s' = log s ++ concat segs
    /\ replay env self (world s) (concat segs) (world s')
    /\ Forall2 (epoch_with_losses self) (seq 0 k) segs.
Proof.
  apply (@for_range_blocks W env self (epoch env self) (epoch_with_losses self)).
  intros i s0 s1. apply epoch_block.
Qed.

(** A completed run of [train]: the two optimizers, then the loop. *)
Lemma train_blocks (W : Type) (env : Env W) (self : Model) (s s' : State W) :
  train env self s = Ok (tt, s') ->
  exists segs,
    log s' = log s ++ [EvAdam G (lr (hps self)); EvAdam D (lr (hps self))] ++ concat segs
    /\ replay env self (world s)
         ([EvAdam G (lr (hps self)); EvAdam D (lr (hps self))] ++ concat segs) (world s')
    /\ Forall2 (epoch_with_losses self) (seq 0 (num_epoch (hps self))) segs.
Proof.
  intros H. unfold train in H. minv.
  repeat match goal with u : unit |- _ => destruct u end.
  apply loop_blocks in H. destruct H as (segs & Hlog & Hrun & HF).
  cbn [world log] in *.
  exists segs. split; [ | split; [ | exact HF]].
  - rewrite Hlog. rewrite <- !app_assoc. reflexivity.
  - cbn [app]. eapply replay_cons; [econstructor; eassumption | ].
    eapply replay_cons; [econstructor; eassumption | ]. exact Hrun.
Qed.

(** The loop of [train] is its first [k] iterations, then the others. *)
Lemma for_range_app (W : Type) (body : nat -> M W unit) (k m start : nat) (s : State W) :
  for_range body start (k + m) s
  = mbind (for_range body start k) (fun _ => for_range body (start + k) m) s.
Proof.
  revert start s. induction k as [|k IH]; intros start s.
  - cbn. now rewrite Nat.add_0_r.
  - change (for_range body start (S k + m) s)
      with (mbind (body start) (fun _ => for_range body (S start) (k + m)) s).
    change (for_range body start (S k))
      with (mbind (body start) (fun _ => for_range body (S start) k)).
    unfold mbind. destruct (body start s) as [[u s1] | e]; cbn [bind]; [ | reflexivity].
    rewrite IH. unfold mbind. now rewrite Nat.add_succ_comm.
Qed.

Lemma example_loop_runs :
  exists s',
    for_range (epoch example_env example_model) 0 2 example_state = Ok (tt, s')
    /\ world s' = 28.
Proof.
  eexists. split.
  - lazy -[Rplus Rminus Rmult Rdiv Ropp Rinv IZR INR PI Rtrigo_def.exp R_sqrt.sqrt ln pow
           Req_dec_T Rlt_dec].
    reflexivity.
  - reflexivity.
Qed.

(** C4. In the first [k] iterations of the loop of [train], for every [k]
    up to [num_epoch] and whether or not the loop goes on after them: the
    log is one block of events per iteration, in the order of the
    iterations, and the world has gone through the calls of these events,
    in their order, and through no other call.  In every block the calls
    that update a network are, in this order and each exactly once: the
    gradients of the generator are zeroed, the generator loss is
    backpropagated, the generator optimizer steps, the gradients of the
    discriminator are zeroed, the discriminator loss is backpropagated, the
    discriminator optimizer steps.  Over the iterations the two updates
    alternate. *)
Theorem train_alternates (W : Type) (env : Env W) (self : Model) (k : nat)
  (s s' : State W) :
  k <= num_epoch (hps self) ->
  for_range (epoch env self) 0 k s = Ok (tt, s') ->
  exists segs,
    log s' = log s ++ concat segs
    /\ length segs = k
    /\ replay env self (world s) (concat segs) (world s')
    /\ Forall2 (fun i seg =>
                  (exists x, seg = epoch_events i x)
                  /\ view update_view seg = one_iteration)
         (seq 0 k) segs
    /\ view update_view (concat segs) = concat (repeat one_iteration k).
Proof.
  intros _ H. apply loop_blocks in H. destruct H as (segs & Hlog & Hrun & HF).
  assert (HF' : Forall2 (fun i seg =>
                           (exists x, seg = epoch_events i x)
                           /\ view update_view seg = one_iteration)
                  (seq 0 k) segs).
  { revert HF. apply Forall2_weaken. intros i seg Hseg.
    destruct (epoch_with_losses_events Hseg) as [x ->].
    split; [eauto | apply view_epoch_events]. }
  exists segs. split; [exact Hlog | ].
  split; [ | split; [exact Hrun | split; [exact HF' | ]]].
  - apply Forall2_length in HF. now rewrite length_seq in HF.
  - assert (Hblocks : Forall2 (fun (_ : nat) seg => view update_view seg = one_iteration)
                        (seq 0 k) segs).
    { revert HF'. apply Forall2_weaken. intros i seg [_ Hv]. exact Hv. }
    apply view_concat in Hblocks. now rewrite length_seq in Hblocks.
Qed.

Lemma train_alternates_witness :
  exists s',
    for_range (epoch example_env example_model) 0 2 example_state = Ok (tt, s')
    /\ world s' = 28
    /\ replay example_env example_model 0 (log s') (world s')
    /\ view update_view (log s') = one_iteration ++ one_iteration.
Proof.
  destruct example_loop_runs as (s' & E & Hworld). exists s'.
  split; [exact E | ]. split; [exact Hworld | ].
  destruct (@train_alternates nat example_env example_model 2 example_state s'
              (le_n 2) E) as (segs & Hlog & _ & Hrun & _ & Hview).
  cbn [log world example_state app] in Hlog, Hrun. rewrite Hlog.
  split; [exact Hrun | exact Hview].
Defined.





(** * Further properties of the code *)

(** ** [get_ground_truth]: when it returns and what it raises *)

Lemma fill_mask_raise (sequence_lengths : list nat) :
  forall (mask : Tensor2) (sequence_index : nat),
    sequence_index <= cols2 mask ->
    cols2 mask < sequence_index + length sequence_lengths ->
    fill_mask mask sequence_index sequence_lengths = Raise IndexError.
Proof.
  induction sequence_lengths as [|len rest IH]; intros mask idx Hle Hgt.
  - cbn [length] in Hgt. lia.
  - cbn [fill_mask length] in *. unfold Torch.setitem_rows_col.
    destruct (Nat.ltb_spec idx (cols2 mask)) as [Hlt | Hge]; cbn [bind]; [ | reflexivity].
    apply IH; cbn [cols2]; lia.
Qed.

(** X1. [get_ground_truth] returns exactly on a batch that has at least one
    column and five features, with no more sequence lengths than columns,
    and with at least one mixture component. *)
Theorem get_ground_truth_returns_iff (self : Model) (batch : Tensor3)
  (sequence_lengths : list nat) :
  (exists out, get_ground_truth self batch sequence_lengths = Ok out)
  <-> 0 < dim1 batch /\ dim2 batch = 5
      /\ length sequence_lengths <= dim1 batch /\ 0 < num_mixture (hps self).
Proof.
  split.
  - intros [[[[mask dx] dy] ps] H].
    destruct (mask_entries_of_ground_truth _ _ _ H) as (_ & Hlen & _).
    apply get_ground_truth_inv in H. destruct H as (Hw & Hf & Hm & _).
    auto.
  - intros (Hw & Hf & Hlen & Hm).
    destruct (get_ground_truth_ok self batch sequence_lengths Hw Hf Hm Hlen)
      as (mask & dx & dy & ps & H).
    eauto.
Qed.

(** X2. On a batch with at least one column and five features, more sequence
    lengths than columns make [get_ground_truth] raise [IndexError]. *)
Theorem get_ground_truth_index_error (self : Model) (batch : Tensor3)
  (sequence_lengths : list nat) :
  0 < dim1 batch -> dim2 batch = 5 -> dim1 batch < length sequence_lengths ->
  get_ground_truth self batch sequence_lengths = Raise IndexError.
Proof.
  intros Hw Hf Hlen. unfold get_ground_truth.
  rewrite stack1_repeat by lia. cbn [bind].
  unfold Torch.cat0, Torch.unsqueeze0. cbn [dim0 dim1 dim2 at3 rows2 cols2 at2].
  rewrite Nat.eqb_refl, Hf. cbn [andb Torch.of_list len1 length Nat.eqb bind dim1].
  rewrite fill_mask_raise by (cbn [Torch.zeros2 cols2]; lia).
  reflexivity.
Qed.

Lemma get_ground_truth_index_error_witness :
  get_ground_truth example_model example_batch [1; 1] = Raise IndexError.
Proof.
  apply get_ground_truth_index_error; cbn; lia.
Defined.

(** X3. A batch without columns, or with a number of features other than
    five, makes [get_ground_truth] raise [RuntimeError]; so does a model
    without mixture components, on sequence lengths that fit the batch. *)
Theorem get_ground_truth_runtime_error (self : Model) (batch : Tensor3)
  (sequence_lengths : list nat) :
  dim1 batch = 0 \/ dim2 batch <> 5
  \/ (length sequence_lengths <= dim1 batch /\ num_mixture (hps self) = 0) ->
  get_ground_truth self batch sequence_lengths = Raise RuntimeError.
Proof.
  intros H. unfold get_ground_truth.
  destruct (Nat.eq_dec (dim1 batch) 0) as [Hw | Hw].
  { rewrite Hw. reflexivity. }
  rewrite stack1_repeat by lia. cbn [bind].
  unfold Torch.cat0, Torch.unsqueeze0. cbn [dim0 dim1 dim2 at3 rows2 cols2 at2].
  rewrite Nat.eqb_refl. cbn [andb Torch.of_list len1 length].
  destruct (Nat.eqb_spec (dim2 batch) 5) as [Hf | Hf]; [ | reflexivity].
  destruct H as [H | [H | [Hlen Hm]]]; [contradiction | contradiction | ].
  cbn [bind dim1].
  destruct (@fill_mask_ok sequence_lengths (Torch.zeros2 (N_max self + 1) (dim1 batch)) 0)
    as [mask Hmask]; [cbn; lia | ].
  rewrite Hmask. cbn [bind].
  unfold Torch.select2, Torch.slice_from. cbn [dim0 dim1 dim2 at3].
  rewrite Hf. change (0 <? 5) with true. cbn [bind]. rewrite Hm. reflexivity.
Qed.

Lemma get_ground_truth_runtime_error_witness :
  get_ground_truth example_model (full3 2 1 4 0) example_lengths = Raise RuntimeError.
Proof.
  apply get_ground_truth_runtime_error. right. left. cbn. lia.
Defined.

(** ** [get_ground_truth]: the mask of a sequence of any length *)

Lemma sum_indicator (len n : nat) :
  Scalar.sum (S n) (fun t => if (1 <=? t) && (t <=? len) then const 1 else const 0)
  = Some (INR (Nat.min len n)).
Proof.
  induction n as [|n IH].
  - cbn. rewrite Nat.min_0_r. cbn. f_equal. lra.
  - change (Scalar.sum (S (S n)) ?f) with (Scalar.add (Scalar.sum (S n) f) (f (S n))).
    cbv beta. rewrite IH. change (1 <=? S n) with true. cbn [andb].
    destruct (Nat.leb_spec (S n) len) as [Hle | Hgt];
      unfold const, Scalar.add, Scalar.lift2.
    + rewrite (Nat.min_r len n), (Nat.min_r len (S n)) by lia.
      rewrite S_INR. reflexivity.
    + rewrite (Nat.min_l len n), (Nat.min_l len (S n)) by lia.
      f_equal. lra.
Qed.

(** X4. Whenever [get_ground_truth] returns, whatever the sequence lengths
    are: the column of a sequence of length [sequence_length] is 1 exactly
    at the rows [t] of the mask with [1 <= t <= sequence_length], a length
    beyond [N_max] being cut at the last row, and the entries of the column
    add up to [min sequence_length N_max]. *)
Theorem mask_column_clamped (self : Model) (batch : Tensor3)
  (sequence_lengths : list nat) (mask : Tensor2) (delta_x delta_y pen_state : Tensor3)
  (b sequence_length : nat) :
  get_ground_truth self batch sequence_lengths = Ok (mask, delta_x, delta_y, pen_state) ->
  nth_error sequence_lengths b = Some sequence_length ->
  (forall t, t < N_max self + 1 ->
     (at2 mask t b = Some 1%R <-> 1 <= t <= sequence_length)
     /\ (at2 mask t b = Some 0%R <-> ~ 1 <= t <= sequence_length))
  /\ Scalar.sum (N_max self + 1) (fun t => at2 mask t b)
     = Some (INR (Nat.min sequence_length (N_max self))).
Proof.
  intros H Hnth.
  destruct (mask_entries_of_ground_truth _ _ _ H) as (_ & _ & Hat).
  assert (Hcol : forall t, at2 mask t b
                           = if (1 <=? t) && (t <=? sequence_length)
                             then const 1 else const 0).
  { intros t. rewrite Hat. unfold mask_spec. now rewrite Hnth. }
  split.
  - intros t _. rewrite Hcol. unfold const.
    destruct (Nat.leb_spec 1 t), (Nat.leb_spec t sequence_length); cbn [andb];
      (split; split; intros Hx;
       try lia; try reflexivity;
       try (injection Hx as Hx; exfalso; lra)).
  - rewrite Nat.add_1_r. rewrite (sum_ext _ _ (fun t _ => Hcol t)).
    apply sum_indicator.
Qed.

Lemma mask_column_clamped_witness :
  exists mask delta_x delta_y pen_state,
    get_ground_truth example_model example_batch [7]
    = Ok (mask, delta_x, delta_y, pen_state)
    /\ Scalar.sum 2 (fun t => at2 mask t 0) = Some (INR (Nat.min 7 1)).
Proof.
  destruct (@get_ground_truth_ok example_model example_batch [7])
    as (mask & delta_x & delta_y & pen_state & E); try (cbn; lia).
  exists mask, delta_x, delta_y, pen_state. split; [exact E | ].
  exact (proj2 (@mask_column_clamped example_model example_batch [7]
                  mask delta_x delta_y pen_state 0 7 E eq_refl)).
Defined.

(** ** [get_ground_truth]: the first time step of the batch is not read *)

(** X5. Two batches of one shape that agree from time step 1 onward have
    the same ground truth: if [get_ground_truth] returns on one it returns
    on the other, with the same mask and with targets and pen states of the
    same shape and the same entries. *)
Theorem get_ground_truth_ignores_first_step (self : Model) (batch batch' : Tensor3)
  (sequence_lengths : list nat) (mask : Tensor2) (delta_x delta_y pen_state : Tensor3) :
  size3 batch' = size3 batch ->
  (forall t b c, 1 <= t -> at3 batch' t b c = at3 batch t b c) ->
  get_ground_truth self batch sequence_lengths = Ok (mask, delta_x, delta_y, pen_state) ->
  exists delta_x' delta_y' pen_state',
    get_ground_truth self batch' sequence_lengths
    = Ok (mask, delta_x', delta_y', pen_state')
    /\ size3 delta_x' = size3 delta_x /\ size3 delta_y' = size3 delta_y
    /\ size3 pen_state' = size3 pen_state
    /\ (forall t b m, at3 delta_x' t b m = at3 delta_x t b m)
    /\ (forall t b m, at3 delta_y' t b m = at3 delta_y t b m)
    /\ (forall t b c, c < 3 -> at3 pen_state' t b c = at3 pen_state t b c).
Proof.
  intros Hsize Hagree H.
  unfold size3 in Hsize. injection Hsize as H0 H1 H2.
  destruct (mask_entries_of_ground_truth _ _ _ H) as (_ & Hlen & _).
  apply get_ground_truth_inv in H.
  destruct H as (Hw & Hf & Hm & Hmask & Hsx & Hsy & Hsp & Hx & Hy & Hp).
  destruct (@get_ground_truth_ok self batch' sequence_lengths)
    as (mask' & dx' & dy' & ps' & H'); try lia.
  pose proof H' as Hinv. apply get_ground_truth_inv in Hinv.
  destruct Hinv as (_ & _ & _ & Hmask' & Hsx' & Hsy' & Hsp' & Hx' & Hy' & Hp').
  rewrite H1, Hmask in Hmask'. injection Hmask' as <-.
  assert (Hext : forall t b c, extended batch' (t + 1) b c = extended batch (t + 1) b c).
  { intros t b c. unfold extended. rewrite H0.
    destruct (t + 1 <? dim0 batch); [apply Hagree; lia | reflexivity]. }
  exists dx', dy', ps'. split; [exact H' | ].
  rewrite Hsx, Hsy, Hsp, Hsx', Hsy', Hsp', H0, H1.
  repeat split; intros.
  - now rewrite Hx, Hx', Hext.
  - now rewrite Hy, Hy', Hext.
  - now rewrite Hp, Hp', Hext by assumption.
Qed.

Lemma get_ground_truth_ignores_first_step_witness :
  exists mask delta_x delta_y pen_state delta_x' delta_y' pen_state',
    get_ground_truth example_model example_batch example_lengths
    = Ok (mask, delta_x, delta_y, pen_state)
    /\ get_ground_truth example_model
         (mkT3 2 1 5 (fun t _ _ => if t =? 0 then const 9 else const 0)) example_lengths
       = Ok (mask, delta_x', delta_y', pen_state').
Proof.
  destruct (@get_ground_truth_ok example_model example_batch example_lengths)
    as (mask & delta_x & delta_y & pen_state & E); try (cbn; lia).
  destruct (@get_ground_truth_ignores_first_step example_model example_batch
              (mkT3 2 1 5 (fun t _ _ => if t =? 0 then const 9 else const 0))
              example_lengths mask delta_x delta_y pen_state eq_refl)
    as (dx' & dy' & ps' & E' & _).
  - intros t b c Ht. cbn [at3 example_batch full3].
    destruct t as [|t]; [lia | reflexivity].
  - exact E.
  - exists mask, delta_x, delta_y, pen_state, dx', dy', ps'. split; assumption.
Defined.

(** ** [get_ground_truth] and [compute_reconstruction_loss] together *)

Lemma reconstruction_loss_of_ground_truth (self : Model) (batch : Tensor3)
  (sequence_lengths : list nat) (mask : Tensor2) (delta_x delta_y pen_state : Tensor3)
  (pi mu_x mu_y sigma_x sigma_y rho_xy q : Tensor3) :
  dim0 batch = N_max self + 1 ->
  get_ground_truth self batch sequence_lengths = Ok (mask, delta_x, delta_y, pen_state) ->
  size3 pi = (N_max self + 1, dim1 batch, num_mixture (hps self)) ->
  size3 mu_x = (N_max self + 1, dim1 batch, num_mixture (hps self)) ->
  size3 mu_y = (N_max self + 1, dim1 batch, num_mixture (hps self)) ->
  size3 sigma_x = (N_max self + 1, dim1 batch, num_mixture (hps self)) ->
  size3 sigma_y = (N_max self + 1, dim1 batch, num_mixture (hps self)) ->
  size3 rho_xy = (N_max self + 1, dim1 batch, num_mixture (hps self)) ->
  size3 q = (N_max self + 1, dim1 batch, 3) ->
  compute_reconstruction_loss self mask delta_x delta_y pen_state pi mu_x mu_y
    sigma_x sigma_y rho_xy q
  = Ok (Scalar.add
          (Ls_spec self mask delta_x delta_y pi mu_x mu_y sigma_x sigma_y rho_xy)
          (Lp_spec self pen_state q),
        Ls_spec self mask delta_x delta_y pi mu_x mu_y sigma_x sigma_y rho_xy,
        Lp_spec self pen_state q).
Proof.
  intros Hrows H S1 S2 S3 S4 S5 S6 S7.
  destruct (mask_entries_of_ground_truth _ _ _ H) as (Hmask & _ & _).
  apply get_ground_truth_inv in H.
  destruct H as (_ & _ & _ & _ & Hsx & Hsy & Hsp & _).
  rewrite Nat.add_sub, Hrows in Hsx, Hsy, Hsp.
  eapply compute_reconstruction_loss_eq; eassumption.
Qed.

(** X6. The ground truth of a batch of [N_max + 1] time steps fits the
    outputs of a generator that have [N_max + 1] time steps, the columns of
    the batch, [num_mixture] mixture components and three pen states:
    [compute_reconstruction_loss] then returns, without an exception, the
    losses of the specification. *)
Theorem ground_truth_fits_reconstruction_loss (self : Model) (batch : Tensor3)
  (sequence_lengths : list nat) (mask : Tensor2) (delta_x delta_y pen_state : Tensor3)
  (pi mu_x mu_y sigma_x sigma_y rho_xy q : Tensor3) :
  dim0 batch = N_max self + 1 ->
  get_ground_truth self batch sequence_lengths = Ok (mask, delta_x, delta_y, pen_state) ->
  size3 pi = (N_max self + 1, dim1 batch, num_mixture (hps self)) ->
  size3 mu_x = (N_max self + 1, dim1 batch, num_mixture (hps self)) ->
  size3 mu_y = (N_max self + 1, dim1 batch, num_mixture (hps self)) ->
  size3 sigma_x = (N_max self + 1, dim1 batch, num_mixture (hps self)) ->
  size3 sigma_y = (N_max self + 1, dim1 batch, num_mixture (hps self)) ->
  size3 rho_xy = (N_max self + 1, dim1 batch, num_mixture (hps self)) ->
  size3 q = (N_max self + 1, dim1 batch, 3) ->
  compute_reconstruction_loss self mask delta_x delta_y pen_state pi mu_x mu_y
    sigma_x sigma_y rho_xy q
  = Ok (Scalar.add
          (Ls_spec self mask delta_x delta_y pi mu_x mu_y sigma_x sigma_y rho_xy)
          (Lp_spec self pen_state q),
        Ls_spec self mask delta_x delta_y pi mu_x mu_y sigma_x sigma_y rho_xy,
        Lp_spec self pen_state q).
Proof.
  intros. eapply reconstruction_loss_of_ground_truth; eassumption.
Qed.

Lemma ground_truth_fits_reconstruction_loss_witness :
  exists mask delta_x delta_y pen_state loss Ls Lp,
    get_ground_truth example_model example_batch example_lengths
    = Ok (mask, delta_x, delta_y, pen_state)
    /\ compute_reconstruction_loss example_model mask delta_x delta_y pen_state
         (g_pi example_out) (g_mu_x example_out) (g_mu_y example_out)
         (g_sigma_x example_out) (g_sigma_y example_out) (g_rho_xy example_out)
         (g_q example_out) = Ok (loss, Ls, Lp).
Proof.
  destruct (@get_ground_truth_ok example_model example_batch example_lengths)
    as (mask & delta_x & delta_y & pen_state & E); try (cbn; lia).
  exists mask, delta_x, delta_y, pen_state. eexists _, _, _. split; [exact E | ].
  apply (@ground_truth_fits_reconstruction_loss example_model example_batch
           example_lengths mask delta_x delta_y pen_state
           (g_pi example_out) (g_mu_x example_out) (g_mu_y example_out)
           (g_sigma_x example_out) (g_sigma_y example_out) (g_rho_xy example_out)
           (g_q example_out) eq_refl E); reflexivity.
Defined.

(** ** [compute_bivariate_normal_pdf]: sign, bound, symmetries, shapes *)

Lemma pdf_entry_swap (dx dy mx my sx sy rho : scalar) :
  pdf_entry dx dy mx my sx sy rho = pdf_entry dy dx my mx sy sx rho.
Proof.
  destruct dx as [dx|], dy as [dy|], mx as [mx|], my as [my|], sx as [sx|], sy as [sy|],
    rho as [rho|]; unfold_scalar; case_dec; try reflexivity;
    try (exfalso;
         match goal with
         | H : ?a = 0%R, H' : ?b <> 0%R |- _ => apply H'; rewrite <- H; ring
         end).
  f_equal. f_equal; [f_equal; ring | f_equal; field; repeat split; assumption || lra].
Qed.


Lemma pdf_exponent_nonpos (dx dy mx my sx sy rho : R) :
  (rho ^ 2 < 1)%R ->
  ((((dx - mx) / sx) ^ 2 + ((dy - my) / sy) ^ 2
    - 2 * rho * (dx - mx) / sx * (dy - my) / sy) / (-2 * (1 - rho ^ 2)) <= 0)%R.
Proof.
  intros Hrho.
  set (a := ((dx - mx) / sx)%R). set (b := ((dy - my) / sy)%R).
  replace (2 * rho * (dx - mx) / sx * (dy - my) / sy)%R with (2 * rho * a * b)%R
    by (unfold a, b, Rdiv; ring).
  assert (HQ : (0 <= a ^ 2 + b ^ 2 - 2 * rho * a * b)%R).
  { pose proof (pow2_ge_0 (a - rho * b)). pose proof (pow2_ge_0 b). nra. }
  assert (HD : (/ (-2 * (1 - rho ^ 2)) < 0)%R) by (apply Rinv_lt_0_compat; lra).
  unfold Rdiv. nra.
Qed.

Lemma exp_le_1 (x : R) : (x <= 0)%R -> (Rtrigo_def.exp x <= 1)%R.
Proof.
  intros [Hlt | ->].
  - left. rewrite <- exp_0. now apply exp_increasing.
  - right. apply exp_0.
Qed.

Lemma pdf_entry_sign_bound (dx dy mx my sx sy rho : R) :
  sx <> 0%R -> sy <> 0%R -> (rho ^ 2 < 1)%R ->
  exists v,
    pdf_entry (Some dx) (Some dy) (Some mx) (Some my) (Some sx) (Some sy) (Some rho)
    = Some v
    /\ ((0 < sx * sy)%R ->
        (0 < v <= 1 / (2 * PI * sx * sy * R_sqrt.sqrt (1 - rho ^ 2)))%R)
    /\ ((sx * sy < 0)%R -> (v < 0)%R).
Proof.
  intros Hx Hy Hrho. rewrite pdf_entry_defined by assumption.
  eexists. split; [reflexivity | ].
  pose proof (exp_pos ((((dx - mx) / sx) ^ 2 + ((dy - my) / sy) ^ 2
                        - 2 * rho * (dx - mx) / sx * (dy - my) / sy)
                       / (-2 * (1 - rho ^ 2)))) as Hpos.
  pose proof (exp_le_1 (pdf_exponent_nonpos dx dy mx my sx sy Hrho)) as Hle.
  set (e := Rtrigo_def.exp _) in *.
  assert (Hs : (0 < R_sqrt.sqrt (1 - rho ^ 2))%R) by (apply sqrt_lt_R0; lra).
  pose proof PI_RGT_0 as Hpi.
  replace (2 * PI * sx * sy * R_sqrt.sqrt (1 - rho ^ 2))%R
    with ((2 * PI * R_sqrt.sqrt (1 - rho ^ 2)) * (sx * sy))%R by ring.
  assert (Hk : (0 < 2 * PI * R_sqrt.sqrt (1 - rho ^ 2))%R) by nra.
  set (k := (2 * PI * R_sqrt.sqrt (1 - rho ^ 2))%R) in *.
  split.
  - intros Hprod.
    assert (Hc : (0 < 1 / (k * (sx * sy)))%R).
    { unfold Rdiv. rewrite Rmult_1_l. apply Rinv_0_lt_compat. nra. }
    split; nra.
  - intros Hprod.
    assert (Hc : (1 / (k * (sx * sy)) < 0)%R).
    { unfold Rdiv. rewrite Rmult_1_l. apply Rinv_lt_0_compat. nra. }
    nra.
Qed.

(** X7. On operands of one shape, an entry of the result of
    [compute_bivariate_normal_pdf] that is a number does not have the sign
    opposite to that of [sigma_x * sigma_y]: it is at least 0 where the two
    deviations have one sign, and at most 0 where they have opposite
    signs. *)
Theorem compute_bivariate_normal_pdf_sign
  (delta_x delta_y mu_x mu_y sigma_x sigma_y rho_xy : Tensor3) (T B M : nat) :
  size3 delta_x = (T, B, M) -> size3 delta_y = (T, B, M) ->
  size3 mu_x = (T, B, M) -> size3 mu_y = (T, B, M) ->
  size3 sigma_x = (T, B, M) -> size3 sigma_y = (T, B, M) -> size3 rho_xy = (T, B, M) ->
  exists r,
    compute_bivariate_normal_pdf delta_x delta_y mu_x mu_y sigma_x sigma_y rho_xy = Ok r
    /\ forall i j k (sx sy v : R),
         i < T -> j < B -> k < M ->
         at3 sigma_x i j k = Some sx -> at3 sigma_y i j k = Some sy ->
         at3 r i j k = Some v ->
         ((0 < sx * sy)%R -> (0 <= v)%R) /\ ((sx * sy < 0)%R -> (v <= 0)%R).
Proof.
  intros H1 H2 H3 H4 H5 H6 H7.
  destruct (compute_bivariate_normal_pdf_entries H1 H2 H3 H4 H5 H6 H7)
    as (r & Hr & _ & Hentries).
  exists r. split; [exact Hr | ].
  intros i j k sx sy v Hi Hj Hk Ex Ey Hv.
  rewrite Hentries in Hv by assumption.
  destruct (pdf_entry_some_inv _ _ _ _ _ _ _ Hv)
    as (a & b & c & d & e & f & rho & E1 & E2 & E3 & E4 & E5 & E6 & E7 & He & Hf & Hrho).
  rewrite E1, E2, E3, E4, E5, E6, E7 in Hv.
  rewrite Ex in E5. rewrite Ey in E6.
  injection E5 as <-. injection E6 as <-.
  destruct (@pdf_entry_sign_bound a b c d sx sy rho He Hf Hrho) as (v' & Hv' & Hpos & Hneg).
  rewrite Hv in Hv'. injection Hv' as <-.
  split; intros Hs; [apply Hpos in Hs | apply Hneg in Hs]; lra.
Qed.

Lemma compute_bivariate_normal_pdf_sign_witness :
  exists r,
    compute_bivariate_normal_pdf (full3 2 1 2 1) (full3 2 1 2 1) (full3 2 1 2 0)
      (full3 2 1 2 0) (full3 2 1 2 1) (full3 2 1 2 (-1)) (full3 2 1 2 0) = Ok r
    /\ exists v, at3 r 0 0 0 = Some v /\ (v <= 0)%R.
Proof.
  destruct (@compute_bivariate_normal_pdf_sign
              (full3 2 1 2 1) (full3 2 1 2 1) (full3 2 1 2 0) (full3 2 1 2 0)
              (full3 2 1 2 1) (full3 2 1 2 (-1)) (full3 2 1 2 0) 2 1 2
              eq_refl eq_refl eq_refl eq_refl eq_refl eq_refl eq_refl)
    as (r & Hr & H).
  exists r. split; [exact Hr | ].
  destruct (@compute_bivariate_normal_pdf_entries
              (full3 2 1 2 1) (full3 2 1 2 1) (full3 2 1 2 0) (full3 2 1 2 0)
              (full3 2 1 2 1) (full3 2 1 2 (-1)) (full3 2 1 2 0) 2 1 2
              eq_refl eq_refl eq_refl eq_refl eq_refl eq_refl eq_refl)
    as (r' & Hr' & _ & Hentries).
  rewrite Hr in Hr'. injection Hr' as <-.
  assert (Hv : exists v, at3 r 0 0 0 = Some v).
  { rewrite Hentries by lia.
    change (exists v,
              pdf_entry (Some 1%R) (Some 1%R) (Some 0%R) (Some 0%R) (Some 1%R)
                (Some (-1)%R) (Some 0%R) = Some v).
    rewrite pdf_entry_defined by lra. eauto. }
  destruct Hv as [v Hv]. exists v. split; [exact Hv | ].
  apply (H 0 0 0 1%R (-1)%R v); try lia; try reflexivity; try exact Hv; lra.
Defined.

(** X8. On operands of one shape, exchanging the roles of the two
    coordinates (targets, means and deviations of [x] with those of [y])
    does not change any entry of the result. *)
Theorem compute_bivariate_normal_pdf_swap
  (delta_x delta_y mu_x mu_y sigma_x sigma_y rho_xy : Tensor3) (T B M : nat) :
  size3 delta_x = (T, B, M) -> size3 delta_y = (T, B, M) ->
  size3 mu_x = (T, B, M) -> size3 mu_y = (T, B, M) ->
  size3 sigma_x = (T, B, M) -> size3 sigma_y = (T, B, M) -> size3 rho_xy = (T, B, M) ->
  exists r r',
    compute_bivariate_normal_pdf delta_x delta_y mu_x mu_y sigma_x sigma_y rho_xy = Ok r
    /\ compute_bivariate_normal_pdf delta_y delta_x mu_y mu_x sigma_y sigma_x rho_xy
       = Ok r'
    /\ size3 r' = size3 r
    /\ forall i j k, i < T -> j < B -> k < M -> at3 r' i j k = at3 r i j k.
Proof.
  intros H1 H2 H3 H4 H5 H6 H7.
  destruct (compute_bivariate_normal_pdf_entries H1 H2 H3 H4 H5 H6 H7)
    as (r & Hr & Hs & He).
  destruct (compute_bivariate_normal_pdf_entries H2 H1 H4 H3 H6 H5 H7)
    as (r' & Hr' & Hs' & He').
  exists r, r'. repeat split; try assumption; [congruence | ].
  intros i j k Hi Hj Hk. rewrite He, He' by assumption. apply pdf_entry_swap.
Qed.

Lemma compute_bivariate_normal_pdf_swap_witness :
  exists r r',
    compute_bivariate_normal_pdf (full3 2 1 2 1) (full3 2 1 2 3) (full3 2 1 2 0)
      (full3 2 1 2 2) (full3 2 1 2 1) (full3 2 1 2 5) (full3 2 1 2 0) = Ok r
    /\ compute_bivariate_normal_pdf (full3 2 1 2 3) (full3 2 1 2 1) (full3 2 1 2 2)
         (full3 2 1 2 0) (full3 2 1 2 5) (full3 2 1 2 1) (full3 2 1 2 0) = Ok r'
    /\ at3 r' 1 0 1 = at3 r 1 0 1.
Proof.
  destruct (@compute_bivariate_normal_pdf_swap
              (full3 2 1 2 1) (full3 2 1 2 3) (full3 2 1 2 0) (full3 2 1 2 2)
              (full3 2 1 2 1) (full3 2 1 2 5) (full3 2 1 2 0) 2 1 2
              eq_refl eq_refl eq_refl eq_refl eq_refl eq_refl eq_refl)
    as (r & r' & Hr & Hr' & _ & H).
  exists r, r'. split; [exact Hr | ]. split; [exact Hr' | ]. apply H; lia.
Defined.


Lemma broadcast_dim_incompatible (a b : nat) :
  incompatible a b -> Torch.broadcast_dim a b = Raise RuntimeError.
Proof.
  intros (Hab & Ha & Hb). unfold Torch.broadcast_dim.
  destruct (Nat.eqb_spec a b); [contradiction | ].
  destruct (Nat.eqb_spec a 1); [contradiction | ].
  destruct (Nat.eqb_spec b 1); [contradiction | reflexivity].
Qed.

Lemma broadcast_dim_raise (a b : nat) (e : exn) :
  Torch.broadcast_dim a b = Raise e -> e = RuntimeError.
Proof.
  unfold Torch.broadcast_dim.
  destruct (a =? b); [discriminate | ].
  destruct (a =? 1); [discriminate | ].
  destruct (b =? 1); [discriminate | ].
  intros H. now injection H.
Qed.

Lemma ew3_incompatible (f : scalar -> scalar -> scalar) (x y : Tensor3) :
  incompatible (dim0 x) (dim0 y) \/ incompatible (dim1 x) (dim1 y)
  \/ incompatible (dim2 x) (dim2 y) ->
  Torch.ew3 f x y = Raise RuntimeError.
Proof.
  intros H. unfold Torch.ew3.
  destruct (Torch.broadcast_dim (dim0 x) (dim0 y)) as [a | e] eqn:H0; cbn [bind].
  2: { now rewrite (broadcast_dim_raise _ _ H0). }
  destruct (Torch.broadcast_dim (dim1 x) (dim1 y)) as [b | e] eqn:H1; cbn [bind].
  2: { now rewrite (broadcast_dim_raise _ _ H1). }
  destruct (Torch.broadcast_dim (dim2 x) (dim2 y)) as [c | e] eqn:H2; cbn [bind].
  2: { now rewrite (broadcast_dim_raise _ _ H2). }
  destruct H as [H | [H | H]]; apply broadcast_dim_incompatible in H; congruence.
Qed.

(** X10. When the targets and the means of [x] differ in the size of a
    dimension and neither size is 1, [compute_bivariate_normal_pdf] raises
    [RuntimeError], whatever its other operands are. *)
Theorem compute_bivariate_normal_pdf_shape_error
  (delta_x delta_y mu_x mu_y sigma_x sigma_y rho_xy : Tensor3) :
  incompatible (dim0 delta_x) (dim0 mu_x) \/ incompatible (dim1 delta_x) (dim1 mu_x)
  \/ incompatible (dim2 delta_x) (dim2 mu_x) ->
  compute_bivariate_normal_pdf delta_x delta_y mu_x mu_y sigma_x sigma_y rho_xy
  = Raise RuntimeError.
Proof.
  intros H. unfold compute_bivariate_normal_pdf, Torch.op3, Torch.un3, ret3.
  cbn [bind]. rewrite (ew3_incompatible _ _ _ H). reflexivity.
Qed.

Lemma compute_bivariate_normal_pdf_shape_error_witness :
  compute_bivariate_normal_pdf (full3 2 1 2 1) (full3 2 1 2 1) (full3 3 1 2 0)
    (full3 2 1 2 0) (full3 2 1 2 1) (full3 2 1 2 1) (full3 2 1 2 0)
  = Raise RuntimeError.
Proof.
  apply compute_bivariate_normal_pdf_shape_error. left.
  unfold incompatible. cbn. lia.
Defined.

(** ** [compute_reconstruction_loss]: masked steps, signs, an empty batch *)

Lemma sum_agree (n : nat) (f g : nat -> scalar) :
  (forall i, i < n -> forall a b, f i = Some a -> g i = Some b -> a = b) ->
  forall v v', Scalar.sum n f = Some v -> Scalar.sum n g = Some v' -> v = v'.
Proof.
  induction n as [|n IH]; intros H v v' Hf Hg.
  - cbn in Hf, Hg. congruence.
  - cbn [Scalar.sum] in Hf, Hg. unfold Scalar.add, Scalar.lift2 in Hf, Hg.
    destruct (Scalar.sum n f) as [s|] eqn:Es; [ | discriminate Hf].
    destruct (Scalar.sum n g) as [s'|] eqn:Es'; [ | discriminate Hg].
    destruct (f n) as [a|] eqn:Ea; [ | discriminate Hf].
    destruct (g n) as [b|] eqn:Eb; [ | discriminate Hg].
    injection Hf as <-. injection Hg as <-.
    rewrite (IH (fun i Hi => H i (Nat.lt_lt_succ_r _ _ Hi)) s s' eq_refl eq_refl).
    rewrite (H n (Nat.lt_succ_diag_r n) a b Ea Eb). reflexivity.
Qed.

Lemma loss_quotient_inv (x : scalar) (n : nat) (v : R) :
  Scalar.div (Scalar.neg x) (float n) = Some v ->
  exists s, x = Some s /\ INR n <> 0%R /\ v = (- s / INR n)%R.
Proof.
  destruct x as [s|]; cbn; [ | discriminate].
  destruct (Req_dec_T (INR n) 0) as [H0 | H0]; [discriminate | ].
  intros H. injection H as <-. eauto.
Qed.

Lemma Ls_spec_masked (self : Model) (mask : Tensor2)
  (delta_x delta_y delta_x' delta_y' pi mu_x mu_y sigma_x sigma_y rho_xy : Tensor3)
  (v v' : R) :
  (forall t b, t < rows2 mask -> b < cols2 mask ->
     at2 mask t b = Some 0%R
     \/ forall m, m < dim2 pi ->
          at3 delta_x t b m = at3 delta_x' t b m
          /\ at3 delta_y t b m = at3 delta_y' t b m) ->
  Ls_spec self mask delta_x delta_y pi mu_x mu_y sigma_x sigma_y rho_xy = Some v ->
  Ls_spec self mask delta_x' delta_y' pi mu_x mu_y sigma_x sigma_y rho_xy = Some v' ->
  v = v'.
Proof.
  intros Hmask E E'. unfold Ls_spec in E, E'.
  apply loss_quotient_inv in E, E'.
  destruct E as (s & Es & _ & ->), E' as (s' & Es' & _ & ->).
  f_equal. f_equal.
  refine (sum_agree _ _ _ Es Es'). intros t Ht a a' Ea Ea'. cbv beta in Ea, Ea'.
  refine (sum_agree _ _ _ Ea Ea'). intros b Hb x x' Ex Ex'. cbv beta in Ex, Ex'.
  destruct (Hmask t b Ht Hb) as [Hz | Hsame].
  - rewrite Hz in Ex, Ex'.
    destruct (Scalar.log _) as [l|]; [ | discriminate Ex].
    destruct (Scalar.log _) as [l'|]; [ | discriminate Ex'].
    cbn in Ex, Ex'. injection Ex as <-. injection Ex' as <-. ring.
  - assert (Hl : forall f g : nat -> scalar,
               (forall m, m < dim2 pi -> f m = g m) ->
               Scalar.sum (dim2 pi) f = Scalar.sum (dim2 pi) g)
      by (intros f g Hfg; now apply sum_ext).
    rewrite (Hl _ (fun m =>
               Scalar.mul (at3 pi t b m)
                 (bivariate_normal_density (at3 delta_x' t b m) (at3 delta_y' t b m)
                    (at3 mu_x t b m) (at3 mu_y t b m) (at3 sigma_x t b m)
                    (at3 sigma_y t b m) (at3 rho_xy t b m)))) in Ex.
    + congruence.
    + intros m Hm. destruct (Hsame m Hm) as [-> ->]. reflexivity.
Qed.

(** X11. On operands of one shape, the stroke loss [Ls] does not depend on
    the targets at the steps where the mask is 0: two sets of targets that
    agree wherever the mask is not 0 give the same [Ls], when both are
    numbers.  The steps after the end of a sequence therefore add nothing. *)
Theorem compute_reconstruction_loss_ignores_masked (self : Model) (mask : Tensor2)
  (delta_x delta_y delta_x' delta_y' pen_state pi mu_x mu_y sigma_x sigma_y rho_xy q
     : Tensor3)
  (T B M P : nat) (loss loss' Lp Lp' : scalar) (Ls Ls' : R) :
  size2 mask = (T, B) ->
  size3 delta_x = (T, B, M) -> size3 delta_y = (T, B, M) ->
  size3 delta_x' = (T, B, M) -> size3 delta_y' = (T, B, M) ->
  size3 pi = (T, B, M) -> size3 mu_x = (T, B, M) -> size3 mu_y = (T, B, M) ->
  size3 sigma_x = (T, B, M) -> size3 sigma_y = (T, B, M) -> size3 rho_xy = (T, B, M) ->
  size3 pen_state = (T, B, P) -> size3 q = (T, B, P) ->
  (forall t b, t < T -> b < B ->
     at2 mask t b = Some 0%R
     \/ forall m, m < M ->
          at3 delta_x t b m = at3 delta_x' t b m
          /\ at3 delta_y t b m = at3 delta_y' t b m) ->
  compute_reconstruction_loss self mask delta_x delta_y pen_state pi mu_x mu_y
    sigma_x sigma_y rho_xy q = Ok (loss, Some Ls, Lp) ->
  compute_reconstruction_loss self mask delta_x' delta_y' pen_state pi mu_x mu_y
    sigma_x sigma_y rho_xy q = Ok (loss', Some Ls', Lp') ->
  Ls = Ls'.
Proof.
  intros Hm S1 S2 S3 S4 S5 S6 S7 S8 S9 S10 S11 S12 Hmask E E'.
  rewrite (compute_reconstruction_loss_eq self Hm S1 S2 S5 S6 S7 S8 S9 S10 S11 S12) in E.
  rewrite (compute_reconstruction_loss_eq self Hm S3 S4 S5 S6 S7 S8 S9 S10 S11 S12) in E'.
  injection E as _ E _. injection E' as _ E' _.
  unfold size2, size3 in Hm, S5. injection Hm as Hr Hc. injection S5 as _ _ HM.
  eapply Ls_spec_masked; [ | exact E | exact E'].
  rewrite Hr, Hc, HM. exact Hmask.
Qed.

(** X12. On operands of one shape, a mask that is 0 everywhere gives a
    stroke loss [Ls] of 0, when it is a number: a batch of empty sequences
    has no stroke loss. *)
Theorem compute_reconstruction_loss_zero_mask (self : Model) (mask : Tensor2)
  (delta_x delta_y pen_state pi mu_x mu_y sigma_x sigma_y rho_xy q : Tensor3)
  (T B M P : nat) (loss Lp : scalar) (Ls : R) :
  size2 mask = (T, B) ->
  size3 delta_x = (T, B, M) -> size3 delta_y = (T, B, M) -> size3 pi = (T, B, M) ->
  size3 mu_x = (T, B, M) -> size3 mu_y = (T, B, M) ->
  size3 sigma_x = (T, B, M) -> size3 sigma_y = (T, B, M) -> size3 rho_xy = (T, B, M) ->
  size3 pen_state = (T, B, P) -> size3 q = (T, B, P) ->
  (forall t b, t < T -> b < B -> at2 mask t b = Some 0%R) ->
  compute_reconstruction_loss self mask delta_x delta_y pen_state pi mu_x mu_y
    sigma_x sigma_y rho_xy q = Ok (loss, Some Ls, Lp) ->
  Ls = 0%R.
Proof.
  intros Hm S1 S2 S3 S4 S5 S6 S7 S8 S9 S10 Hzero E.
  rewrite (compute_reconstruction_loss_eq self Hm S1 S2 S3 S4 S5 S6 S7 S8 S9 S10) in E.
  injection E as _ E _. unfold Ls_spec in E.
  unfold size2 in Hm. injection Hm as Hr Hc. rewrite Hr, Hc in E.
  apply loss_quotient_inv in E. destruct E as (s & Es & _ & ->).
  assert (Hs : s = 0%R).
  { refine (sum_agree _ _ _ Es (@sum_zero T (fun _ => Some 0%R) (fun _ _ => eq_refl))).
    intros t Ht a b Ea Eb. injection Eb as <-. cbv beta in Ea.
    exact (masked_row_zero _ _ (fun b' Hb' => Hzero t b' Ht Hb') Ea). }
  rewrite Hs. unfold Rdiv. ring.
Qed.

Lemma sum_nonneg (n : nat) (f : nat -> scalar) :
  (forall i, i < n -> exists a, f i = Some a /\ (0 <= a)%R) ->
  exists s, Scalar.sum n f = Some s /\ (0 <= s)%R.
Proof.
  induction n as [|n IH]; intros H; cbn [Scalar.sum].
  - exists 0%R. split; [reflexivity | lra].
  - destruct IH as (s & Hs & Hs0); [intros i Hi; apply H; lia | ].
    destruct (H n) as (a & Ha & Ha0); [lia | ].
    rewrite Hs, Ha. cbn. eexists. split; [reflexivity | lra].
Qed.

Lemma Ls_spec_some_of_reals (self : Model) (mask : Tensor2)
  (delta_x delta_y pi mu_x mu_y sigma_x sigma_y rho_xy : Tensor3) :
  (0 < epsilon (hps self))%R ->
  (N_max self + 1) * batch_size (hps self) <> 0 ->
  (forall t b, t < rows2 mask -> b < cols2 mask -> exists m, at2 mask t b = Some m) ->
  (forall t b k, t < rows2 mask -> b < cols2 mask -> k < dim2 pi ->
     mixture_entry_ok delta_x delta_y pi mu_x mu_y sigma_x sigma_y rho_xy t b k) ->
  exists v, Ls_spec self mask delta_x delta_y pi mu_x mu_y sigma_x sigma_y rho_xy = Some v.
Proof.
  intros Heps Hn Hmask Hok. apply Ls_spec_some; try assumption.
  intros t b Ht Hb. destruct (Hmask t b Ht Hb) as [m Hm].
  destruct (@sum_nonneg (dim2 pi) (fun k =>
              Scalar.mul (at3 pi t b k)
                (bivariate_normal_density
                   (at3 delta_x t b k) (at3 delta_y t b k) (at3 mu_x t b k)
                   (at3 mu_y t b k) (at3 sigma_x t b k) (at3 sigma_y t b k)
                   (at3 rho_xy t b k)))) as (s & Hs & Hs0).
  { intros k Hk.
    destruct (Hok t b k Ht Hb Hk)
      as (p & dx & dy & mx & my & sx & sy & rho
          & -> & -> & -> & -> & -> & -> & -> & -> & Hp & Hx & Hy & Hrho).
    rewrite <- pdf_entry_density.
    destruct (@pdf_entry_sign_bound dx dy mx my sx sy rho) as (v & -> & Hv & _);
      try assumption; try lra.
    cbn. eexists. split; [reflexivity | ].
    assert (0 < sx * sy)%R by nra. specialize (Hv H). nra. }
  exists m, s. auto.
Qed.

Lemma reconstruction_loss_numbers (self : Model) (mask : Tensor2)
  (delta_x delta_y pen_state pi mu_x mu_y sigma_x sigma_y rho_xy q : Tensor3)
  (T B M P : nat) :
  size2 mask = (T, B) ->
  size3 delta_x = (T, B, M) -> size3 delta_y = (T, B, M) -> size3 pi = (T, B, M) ->
  size3 mu_x = (T, B, M) -> size3 mu_y = (T, B, M) ->
  size3 sigma_x = (T, B, M) -> size3 sigma_y = (T, B, M) -> size3 rho_xy = (T, B, M) ->
  size3 pen_state = (T, B, P) -> size3 q = (T, B, P) ->
  (0 < epsilon (hps self))%R ->
  batch_size (hps self) <> 0 ->
  (forall t b, t < T -> b < B -> exists m, at2 mask t b = Some m) ->
  (forall t b k, t < T -> b < B -> k < M ->
     mixture_entry_ok delta_x delta_y pi mu_x mu_y sigma_x sigma_y rho_xy t b k) ->
  (forall t b c, t < T -> b < B -> c < P ->
     exists r y, at3 q t b c = Some r /\ (0 < r)%R /\ at3 pen_state t b c = Some y) ->
  exists loss Ls Lp : R,
    compute_reconstruction_loss self mask delta_x delta_y pen_state pi mu_x mu_y
      sigma_x sigma_y rho_xy q = Ok (Some loss, Some Ls, Some Lp)
    /\ loss = (Ls + Lp)%R.
Proof.
  intros Hm S1 S2 S3 S4 S5 S6 S7 S8 S9 S10 Heps Hbs Hmask Hok Hq.
  rewrite (compute_reconstruction_loss_eq self Hm S1 S2 S3 S4 S5 S6 S7 S8 S9 S10).
  assert (Hn : (N_max self + 1) * batch_size (hps self) <> 0) by nia.
  unfold size2, size3 in Hm, S3, S9.
  injection Hm as Hr Hc. injection S3 as _ _ HM. injection S9 as P0 P1 P2.
  destruct (@Ls_spec_some_of_reals self mask delta_x delta_y pi mu_x mu_y
              sigma_x sigma_y rho_xy) as [ls Hls]; try assumption;
    try (rewrite ?Hr, ?Hc, ?HM; assumption).
  destruct (@Lp_spec_some self pen_state q) as [lp Hlp]; try assumption;
    try (rewrite ?P0, ?P1, ?P2; assumption).
  rewrite Hls, Hlp. cbn. eauto.
Qed.


Lemma example_loss_is_number (mask : Tensor2) (delta_x delta_y : Tensor3) :
  size2 mask = (2, 1) -> size3 delta_x = (2, 1, 2) -> size3 delta_y = (2, 1, 2) ->
  (forall t b, exists m, at2 mask t b = Some m) ->
  (forall t b k, exists a, at3 delta_x t b k = Some a) ->
  (forall t b k, exists a, at3 delta_y t b k = Some a) ->
  exists loss Ls Lp : R,
    compute_reconstruction_loss example_model mask delta_x delta_y (full3 2 1 3 0)
      (g_pi example_out) (g_mu_x example_out) (g_mu_y example_out)
      (g_sigma_x example_out) (g_sigma_y example_out) (g_rho_xy example_out)
      (g_q example_out) = Ok (Some loss, Some Ls, Some Lp).
Proof.
  intros Hm Hx Hy Hmask Hdx Hdy.
  destruct (@reconstruction_loss_numbers example_model mask delta_x delta_y
              (full3 2 1 3 0) (g_pi example_out) (g_mu_x example_out)
              (g_mu_y example_out) (g_sigma_x example_out) (g_sigma_y example_out)
              (g_rho_xy example_out) (g_q example_out) 2 1 2 3)
    as (loss & Ls & Lp & H & _); try assumption; try reflexivity.
  - cbn. lra.
  - cbn. lia.
  - intros t b _ _. apply Hmask.
  - intros t b k _ _ _.
    destruct (Hdx t b k) as [cx Hcx], (Hdy t b k) as [cy Hcy].
    exists (1 / 2)%R, cx, cy, 0%R, 0%R, 1%R, 1%R, 0%R.
    repeat split; try assumption; try reflexivity; lra.
  - intros t b c _ _ _. exists (1 / 3)%R, 0%R. repeat split. lra.
  - eauto.
Qed.

Lemma example_masked_reals (v w : R) (t b : nat) :
  exists m, (if t =? 0 then Some v else Some w) = Some m.
Proof. destruct (t =? 0); eauto. Qed.

Lemma compute_reconstruction_loss_ignores_masked_witness :
  exists (loss loss' Lp Lp' : scalar) (Ls Ls' : R),
    compute_reconstruction_loss example_model
      (mkT2 2 1 (fun t _ => if t =? 0 then Some 0%R else Some 1%R))
      (full3 2 1 2 1) (full3 2 1 2 1) (full3 2 1 3 0)
      (g_pi example_out) (g_mu_x example_out) (g_mu_y example_out)
      (g_sigma_x example_out) (g_sigma_y example_out) (g_rho_xy example_out)
      (g_q example_out) = Ok (loss, Some Ls, Lp)
    /\ compute_reconstruction_loss example_model
         (mkT2 2 1 (fun t _ => if t =? 0 then Some 0%R else Some 1%R))
         (mkT3 2 1 2 (fun t _ _ => if t =? 0 then Some 5%R else Some 1%R))
         (full3 2 1 2 1) (full3 2 1 3 0)
         (g_pi example_out) (g_mu_x example_out) (g_mu_y example_out)
         (g_sigma_x example_out) (g_sigma_y example_out) (g_rho_xy example_out)
         (g_q example_out) = Ok (loss', Some Ls', Lp')
    /\ Ls = Ls'.
Proof.
  destruct (@example_loss_is_number
              (mkT2 2 1 (fun t _ => if t =? 0 then Some 0%R else Some 1%R))
              (full3 2 1 2 1) (full3 2 1 2 1) eq_refl eq_refl eq_refl
              (fun t b => example_masked_reals 0 1 t b)
              (fun t b k => ex_intro _ 1%R eq_refl)
              (fun t b k => ex_intro _ 1%R eq_refl))
    as (l & Ls & Lp & E).
  destruct (@example_loss_is_number
              (mkT2 2 1 (fun t _ => if t =? 0 then Some 0%R else Some 1%R))
              (mkT3 2 1 2 (fun t _ _ => if t =? 0 then Some 5%R else Some 1%R))
              (full3 2 1 2 1) eq_refl eq_refl eq_refl
              (fun t b => example_masked_reals 0 1 t b)
              (fun t b k => example_masked_reals 5 1 t b)
              (fun t b k => ex_intro _ 1%R eq_refl))
    as (l' & Ls' & Lp' & E').
  exists (Some l), (Some l'), (Some Lp), (Some Lp'), Ls, Ls'.
  split; [exact E | ]. split; [exact E' | ].
  assert (Hmask : forall t b, t < 2 -> b < 1 ->
            at2 (mkT2 2 1 (fun t _ => if t =? 0 then Some 0%R else Some 1%R)) t b
            = Some 0%R
            \/ forall m, m < 2 ->
                 at3 (full3 2 1 2 1) t b m
                 = at3 (mkT3 2 1 2 (fun t _ _ => if t =? 0 then Some 5%R else Some 1%R))
                     t b m
                 /\ at3 (full3 2 1 2 1) t b m = at3 (full3 2 1 2 1) t b m).
  { intros t b Ht Hb. destruct t as [|t]; [left; reflexivity | right].
    intros m Hm. split; reflexivity. }
  exact (@compute_reconstruction_loss_ignores_masked example_model
           (mkT2 2 1 (fun t _ => if t =? 0 then Some 0%R else Some 1%R))
           (full3 2 1 2 1) (full3 2 1 2 1)
           (mkT3 2 1 2 (fun t _ _ => if t =? 0 then Some 5%R else Some 1%R))
           (full3 2 1 2 1) (full3 2 1 3 0)
           (g_pi example_out) (g_mu_x example_out) (g_mu_y example_out)
           (g_sigma_x example_out) (g_sigma_y example_out) (g_rho_xy example_out)
           (g_q example_out) 2 1 2 3 (Some l) (Some l') (Some Lp) (Some Lp') Ls Ls'
           eq_refl eq_refl eq_refl eq_refl eq_refl eq_refl eq_refl eq_refl eq_refl
           eq_refl eq_refl eq_refl eq_refl Hmask E E').
Defined.

Lemma compute_reconstruction_loss_zero_mask_witness :
  exists (loss Lp : scalar) (Ls : R),
    compute_reconstruction_loss example_model (full2 2 1 0)
      (full3 2 1 2 1) (full3 2 1 2 1) (full3 2 1 3 0)
      (g_pi example_out) (g_mu_x example_out) (g_mu_y example_out)
      (g_sigma_x example_out) (g_sigma_y example_out) (g_rho_xy example_out)
      (g_q example_out) = Ok (loss, Some Ls, Lp)
    /\ Ls = 0%R.
Proof.
  destruct (@example_loss_is_number (full2 2 1 0) (full3 2 1 2 1) (full3 2 1 2 1)
              eq_refl eq_refl eq_refl
              (fun t b => ex_intro _ 0%R eq_refl)
              (fun t b k => ex_intro _ 1%R eq_refl)
              (fun t b k => ex_intro _ 1%R eq_refl))
    as (l & Ls & Lp & E).
  exists (Some l), (Some Lp), Ls. split; [exact E | ].
  exact (@compute_reconstruction_loss_zero_mask example_model (full2 2 1 0)
           (full3 2 1 2 1) (full3 2 1 2 1) (full3 2 1 3 0)
           (g_pi example_out) (g_mu_x example_out) (g_mu_y example_out)
           (g_sigma_x example_out) (g_sigma_y example_out) (g_rho_xy example_out)
           (g_q example_out) 2 1 2 3 (Some l) (Some Lp) Ls
           eq_refl eq_refl eq_refl eq_refl eq_refl eq_refl eq_refl eq_refl eq_refl
           eq_refl eq_refl (fun t b _ _ => eq_refl) E).
Defined.

Lemma sum_nonpos (n : nat) (f : nat -> scalar) :
  (forall i, i < n -> exists a, f i = Some a /\ (a <= 0)%R) ->
  exists s, Scalar.sum n f = Some s /\ (s <= 0)%R.
Proof.
  induction n as [|n IH]; intros H; cbn [Scalar.sum].
  - exists 0%R. split; [reflexivity | lra].
  - destruct IH as (s & Hs & Hs0); [intros i Hi; apply H; lia | ].
    destruct (H n) as (a & Ha & Ha0); [lia | ].
    rewrite Hs, Ha. cbn. eexists. split; [reflexivity | lra].
Qed.

Lemma ln_nonpos (r : R) : (0 < r <= 1)%R -> (ln r <= 0)%R.
Proof.
  intros [Hpos [Hlt | ->]].
  - left. rewrite <- ln_1. now apply ln_increasing.
  - right. apply ln_1.
Qed.

(** X14. On operands of one shape and with a batch size that is not 0, the
    pen loss [Lp] is a real number that is not negative when every entry of
    [q] is in the interval from 0, excluded, to 1 and every pen state is a
    real number that is not negative. *)
Theorem compute_reconstruction_loss_pen_nonneg (self : Model) (mask : Tensor2)
  (delta_x delta_y pen_state pi mu_x mu_y sigma_x sigma_y rho_xy q : Tensor3)
  (T B M P : nat) (loss Ls Lp : scalar) :
  size2 mask = (T, B) ->
  size3 delta_x = (T, B, M) -> size3 delta_y = (T, B, M) -> size3 pi = (T, B, M) ->
  size3 mu_x = (T, B, M) -> size3 mu_y = (T, B, M) ->
  size3 sigma_x = (T, B, M) -> size3 sigma_y = (T, B, M) -> size3 rho_xy = (T, B, M) ->
  size3 pen_state = (T, B, P) -> size3 q = (T, B, P) ->
  batch_size (hps self) <> 0 ->
  (forall t b c, t < T -> b < B -> c < P ->
     exists r y, at3 q t b c = Some r /\ (0 < r <= 1)%R
                 /\ at3 pen_state t b c = Some y /\ (0 <= y)%R) ->
  compute_reconstruction_loss self mask delta_x delta_y pen_state pi mu_x mu_y
    sigma_x sigma_y rho_xy q = Ok (loss, Ls, Lp) ->
  exists v, Lp = Some v /\ (0 <= v)%R.
Proof.
  intros Hm S1 S2 S3 S4 S5 S6 S7 S8 S9 S10 Hbs Hq E.
  rewrite (compute_reconstruction_loss_eq self Hm S1 S2 S3 S4 S5 S6 S7 S8 S9 S10) in E.
  injection E as _ _ <-. unfold Lp_spec.
  unfold size3 in S9. injection S9 as -> -> ->.
  match goal with
  | |- exists v, Scalar.div (Scalar.neg (Scalar.sum ?n ?f)) _ = _ /\ _ =>
      destruct (@sum_nonpos n f) as (s & Hs & Hs0)
  end.
  { intros t Ht. apply sum_nonpos. intros b Hb. apply sum_nonpos. intros c Hc.
    destruct (Hq t b c Ht Hb Hc) as (r & y & -> & Hr & -> & Hy).
    rewrite log_some by lra. cbn. eexists. split; [reflexivity | ].
    pose proof (ln_nonpos Hr). nra. }
  rewrite Hs. cbn.
  assert (Hn : (0 < INR ((N_max self + 1) * batch_size (hps self)))%R)
    by (apply lt_0_INR; nia).
  destruct (Req_dec_T _ 0) as [H0 | _]; [lra | ].
  eexists. split; [reflexivity | ].
  unfold Rdiv. apply Rmult_le_pos; [lra | ]. left. now apply Rinv_0_lt_compat.
Qed.

Lemma compute_reconstruction_loss_pen_nonneg_witness :
  exists (loss Ls Lp : scalar) (v : R),
    compute_reconstruction_loss example_model (full2 2 1 1) (full3 2 1 2 1)
      (full3 2 1 2 1) (full3 2 1 3 1) (g_pi example_out) (g_mu_x example_out)
      (g_mu_y example_out) (g_sigma_x example_out) (g_sigma_y example_out)
      (g_rho_xy example_out) (g_q example_out) = Ok (loss, Ls, Lp)
    /\ Lp = Some v /\ (0 <= v)%R.
Proof.
  pose proof (@compute_reconstruction_loss_eq example_model (full2 2 1 1)
                (full3 2 1 2 1) (full3 2 1 2 1) (full3 2 1 3 1)
                (g_pi example_out) (g_mu_x example_out) (g_mu_y example_out)
                (g_sigma_x example_out) (g_sigma_y example_out) (g_rho_xy example_out)
                (g_q example_out) 2 1 2 3
                eq_refl eq_refl eq_refl eq_refl eq_refl eq_refl eq_refl eq_refl eq_refl
                eq_refl eq_refl) as E.
  assert (Hbs : batch_size (hps example_model) <> 0) by (cbn; lia).
  assert (Hq : forall t b c, t < 2 -> b < 1 -> c < 3 ->
            exists r y, at3 (g_q example_out) t b c = Some r /\ (0 < r <= 1)%R
                        /\ at3 (full3 2 1 3 1) t b c = Some y /\ (0 <= y)%R).
  { intros t b c _ _ _. exists (1 / 3)%R, 1%R. repeat split; lra. }
  destruct (@compute_reconstruction_loss_pen_nonneg example_model (full2 2 1 1)
              (full3 2 1 2 1) (full3 2 1 2 1) (full3 2 1 3 1)
              (g_pi example_out) (g_mu_x example_out) (g_mu_y example_out)
              (g_sigma_x example_out) (g_sigma_y example_out) (g_rho_xy example_out)
              (g_q example_out) 2 1 2 3 _ _ _
              eq_refl eq_refl eq_refl eq_refl eq_refl eq_refl eq_refl eq_refl eq_refl
              eq_refl eq_refl Hbs Hq E) as (v & Hv & Hv0).
  eexists _, _, _, v. split; [exact E | ]. split; assumption.
Defined.

Lemma div_float_0 (x : scalar) : Scalar.div x (float 0) = None.
Proof.
  destruct x as [a|]; cbn; [ | reflexivity].
  destruct (Req_dec_T 0 0); [reflexivity | contradiction].
Qed.

(** X15. On operands of one shape, a batch size of 0 makes the three losses
    no numbers: [compute_reconstruction_loss] returns, and each loss is the
    result of a division by zero. *)
Theorem compute_reconstruction_loss_empty_batch (self : Model) (mask : Tensor2)
  (delta_x delta_y pen_state pi mu_x mu_y sigma_x sigma_y rho_xy q : Tensor3)
  (T B M P : nat) :
  size2 mask = (T, B) ->
  size3 delta_x = (T, B, M) -> size3 delta_y = (T, B, M) -> size3 pi = (T, B, M) ->
  size3 mu_x = (T, B, M) -> size3 mu_y = (T, B, M) ->
  size3 sigma_x = (T, B, M) -> size3 sigma_y = (T, B, M) -> size3 rho_xy = (T, B, M) ->
  size3 pen_state = (T, B, P) -> size3 q = (T, B, P) ->
  batch_size (hps self) = 0 ->
  compute_reconstruction_loss self mask delta_x delta_y pen_state pi mu_x mu_y
    sigma_x sigma_y rho_xy q = Ok (None, None, None).
Proof.
  intros Hm S1 S2 S3 S4 S5 S6 S7 S8 S9 S10 Hbs.
  rewrite (compute_reconstruction_loss_eq self Hm S1 S2 S3 S4 S5 S6 S7 S8 S9 S10).
  unfold Ls_spec, Lp_spec. rewrite Hbs, Nat.mul_0_r, !div_float_0. reflexivity.
Qed.

Lemma compute_reconstruction_loss_empty_batch_witness :
  compute_reconstruction_loss
    (mkModel (mkHps 2 0 1 2 (1 / 100000) (1 / 2) (1 / 1000)) 1)
    (full2 2 0 1) (full3 2 0 2 1) (full3 2 0 2 1) (full3 2 0 3 0)
    (full3 2 0 2 1) (full3 2 0 2 1) (full3 2 0 2 1) (full3 2 0 2 1) (full3 2 0 2 1)
    (full3 2 0 2 0) (full3 2 0 3 1)
  = Ok (None, None, None).
Proof.
  apply (@compute_reconstruction_loss_empty_batch
           (mkModel (mkHps 2 0 1 2 (1 / 100000) (1 / 2) (1 / 1000)) 1)
           (full2 2 0 1) (full3 2 0 2 1) (full3 2 0 2 1) (full3 2 0 3 0)
           (full3 2 0 2 1) (full3 2 0 2 1) (full3 2 0 2 1) (full3 2 0 2 1)
           (full3 2 0 2 1) (full3 2 0 2 0) (full3 2 0 3 1) 2 0 2 3);
    reflexivity.
Defined.


(** ** [train]: a batch of another shape *)

Lemma call_ok (W A : Type) (f : W -> result (A * W)) (ev : A -> event)
  (s : State W) (a : A) (w : W) :
  f (world s) = Ok (a, w) -> call f ev s = Ok (a, mkState w (log s ++ [ev a])).
Proof. intros H. unfold call. now rewrite H. Qed.

(** X17. An epoch raises [RuntimeError] when the data loader returns a batch
    that has not [N_max + 1] time steps or not [batch_size] columns: the
    batch cannot be concatenated with the stacked latent vectors. *)
Theorem epoch_wrong_batch (W : Type) (env : Env W) (self : Model) (i : nat)
  (s : State W) (batch : Tensor3) (lengths : list nat) (w : W) :
  env_get_batch env (batch_size (hps self)) (world s) = Ok (batch, lengths, w) ->
  dim0 batch <> N_max self + 1 \/ dim1 batch <> batch_size (hps self) ->
  epoch env self i s = Raise RuntimeError.
Proof.
  intros Hb Hshape. unfold epoch, mbind, lift.
  rewrite (@call_ok _ _ _ _ _ _ _ Hb). cbn [bind fst snd].
  rewrite stack2_dim0_repeat by lia. cbn [bind].
  unfold Torch.cat2. cbn [dim0 dim1 dim2 Torch.zeros2 rows2 cols2].
  destruct (Nat.eqb_spec (dim0 batch) (N_max self + 1)),
    (Nat.eqb_spec (dim1 batch) (batch_size (hps self)));
    cbn [andb bind]; try reflexivity.
  destruct Hshape; contradiction.
Qed.

Lemma epoch_wrong_batch_witness :
  epoch example_env_long_batch example_model 0 example_state = Raise RuntimeError.
Proof.
  apply (@epoch_wrong_batch nat example_env_long_batch example_model 0 example_state
           (full3 3 1 5 0) example_lengths 1 eq_refl).
  left. cbn. lia.
Defined.

(** ** [train]: the checkpoints *)

Lemma view_checkpoint_epoch (i : nat) (x : EpochValues) :
  view checkpoint_view (epoch_events i x) = periodic_save i.
Proof.
  unfold epoch_events, periodic_save. destruct (i mod 100 =? 0); reflexivity.
Qed.

Lemma view_concat_blocks (A : Type) (f : event -> option A) (g : nat -> list A)
  (indices : list nat) (segs : list (list event)) :
  Forall2 (fun i seg => view f seg = g i) indices segs ->
  view f (concat segs) = flat_map g indices.
Proof.
  induction 1 as [|i seg indices segs Hseg _ IH]; cbn; [reflexivity | ].
  now rewrite view_app, Hseg, IH.
Qed.

Lemma flat_map_periodic_save (l : list nat) :
  flat_map periodic_save l
  = flat_map (fun i => [EvSave; EvGenerateImage i]) (filter (fun i => i mod 100 =? 0) l).
Proof.
  induction l as [|i l IH]; cbn [flat_map filter]; [reflexivity | ].
  unfold periodic_save at 1. destruct (i mod 100 =? 0); cbn [flat_map app]; now rewrite IH.
Qed.

Lemma multiples_of_100_below (n : nat) :
  length (filter (fun i => i mod 100 =? 0) (seq 0 n)) = (n + 99) / 100.
Proof.
  induction n as [|n IH]; [reflexivity | ].
  rewrite seq_S, filter_app, length_app, IH. cbn [Nat.add filter].
  pose proof (Nat.div_mod_eq n 100) as Hn.
  pose proof (Nat.mod_upper_bound n 100 ltac:(lia)) as Hr.
  set (q := n / 100) in *. set (r := n mod 100) in *. clearbody q r.
  destruct (Nat.eqb_spec r 0) as [H0 | H0]; cbn [length].
  - replace (n + 99) with (q * 100 + 99) by lia.
    replace (S (q * 100 + 99)) with ((q + 1) * 100 + 0) by lia.
    rewrite !Nat.div_add_l by lia. cbn. lia.
  - replace (n + 99) with ((q + 1) * 100 + (r - 1)) by lia.
    replace (S ((q + 1) * 100 + (r - 1))) with ((q + 1) * 100 + r) by lia.
    rewrite !Nat.div_add_l by lia.
    rewrite (Nat.div_small (r - 1)), (Nat.div_small r) by lia. lia.
Qed.

Lemma example_train_world :
  exists s',
    train example_env example_model example_state = Ok (tt, s') /\ world s' = 30.
Proof.
  eexists. split.
  - lazy -[Rplus Rminus Rmult Rdiv Ropp Rinv IZR INR PI Rtrigo_def.exp R_sqrt.sqrt ln pow
           Req_dec_T Rlt_dec].
    reflexivity.
  - reflexivity.
Qed.

(** X18. A completed run of [train] writes a checkpoint (it saves the
    generator, then generates an image) in the epochs that are multiples of
    100 and in no other: among the events of the run, which are the calls
    that the world has gone through, in their order and with no other call,
    the checkpoint calls are those of the epochs [0, 100, 200, ...] below
    [num_epoch], in this order, which are [(num_epoch + 99) / 100]
    epochs. *)
Theorem train_checkpoints (W : Type) (env : Env W) (self : Model) (s s' : State W) :
  train env self s = Ok (tt, s') ->
  exists events,
    log s' = log s ++ events
    /\ replay env self (world s) events (world s')
    /\ view checkpoint_view events
       = flat_map (fun i => [EvSave; EvGenerateImage i])
           (filter (fun i => i mod 100 =? 0) (seq 0 (num_epoch (hps self))))
    /\ length (filter (fun i => i mod 100 =? 0) (seq 0 (num_epoch (hps self))))
       = (num_epoch (hps self) + 99) / 100.
Proof.
  intros H. apply train_blocks in H. destruct H as (segs & Hlog & Hrun & HF).
  exists ([EvAdam G (lr (hps self)); EvAdam D (lr (hps self))] ++ concat segs).
  split; [exact Hlog | ]. split; [exact Hrun | ].
  split; [ | apply multiples_of_100_below].
  rewrite view_app. cbn [view checkpoint_view app].
  rewrite <- flat_map_periodic_save. apply view_concat_blocks.
  revert HF. apply Forall2_weaken. intros i seg Hseg.
  destruct (epoch_with_losses_events Hseg) as [x ->]. apply view_checkpoint_epoch.
Qed.

Lemma train_checkpoints_witness :
  exists s',
    train example_env example_model example_state = Ok (tt, s')
    /\ world s' = 30
    /\ replay example_env example_model 0 (log s') (world s')
    /\ view checkpoint_view (log s') = [EvSave; EvGenerateImage 0].
Proof.
  destruct example_train_world as (s' & E & Hworld). exists s'.
  split; [exact E | ]. split; [exact Hworld | ].
  destruct (train_checkpoints example_env example_model example_state E)
    as (events & Hlog & Hrun & Hview & _).
  cbn [log world example_state app] in Hlog, Hrun. rewrite Hlog.
  split; [exact Hrun | exact Hview].
Defined.

(** ** The main program: the name of a data set *)

(** X19. The main program names a data set by its file name without the
    last four characters, whatever they are: a file name that ends in four
    characters [ext] after [base] gives [base]. *)
Theorem dataset_name_drops_extension (char : Type) (base ext : list char) :
  length ext = 4 -> dataset_name (base ++ ext) = base.
Proof.
  intros H. unfold dataset_name. rewrite length_app, H.
  replace (length base + 4 - 4) with (length base + 0) by lia.
  rewrite firstn_app_2. cbn. apply app_nil_r.
Qed.

Lemma dataset_name_drops_extension_witness :
  dataset_name ([1; 2; 3] ++ [4; 5; 6; 7]) = [1; 2; 3].
Proof.
  apply (@dataset_name_drops_extension nat [1; 2; 3] [4; 5; 6; 7]). reflexivity.
Defined.

(** X20. A file name of at most four characters gives the empty name. *)
Theorem dataset_name_short (char : Type) (file_name : list char) :
  length file_name <= 4 -> dataset_name file_name = [].
Proof.
  intros H. unfold dataset_name.
  replace (length file_name - 4) with 0 by lia. reflexivity.
Qed.

Lemma dataset_name_short_witness : dataset_name [1; 2; 3] = [].
Proof.
  apply (@dataset_name_short nat [1; 2; 3]). cbn. lia.
Defined.

(** ** [train]: the sign of the discriminator loss *)

Lemma sum_some_nonneg (n : nat) (f : nat -> scalar) :
  (forall i x, i < n -> f i = Some x -> (0 <= x)%R) ->
  forall a, Scalar.sum n f = Some a -> (0 <= a)%R.
Proof.
  induction n as [|n IH]; intros H a Ha; cbn [Scalar.sum] in Ha.
  - injection Ha as <-. lra.
  - unfold Scalar.add, Scalar.lift2 in Ha.
    destruct (Scalar.sum n f) as [s|] eqn:Es; [ | discriminate Ha].
    destruct (f n) as [x|] eqn:Ex; [ | discriminate Ha].
    injection Ha as <-.
    pose proof (IH (fun i y Hi => H i y (Nat.lt_lt_succ_r _ _ Hi)) s eq_refl).
    pose proof (H n x (Nat.lt_succ_diag_r n) Ex). lra.
Qed.

Lemma mean_squared_error_nonneg (v : Tensor1) (target m : R) :
  mean_squared_error v target = Some m -> (0 <= m)%R.
Proof.
  unfold mean_squared_error. intros H.
  destruct (Scalar.sum (len1 v) _) as [a|] eqn:Ea; [ | discriminate H].
  assert (Ha : (0 <= a)%R).
  { refine (sum_some_nonneg _ _ Ea). intros i x _ Hx. cbv beta in Hx.
    destruct (at1 v i) as [y|]; [ | discriminate Hx].
    cbn in Hx. injection Hx as <-. apply pow2_ge_0. }
  cbn in H. destruct (Req_dec_T (INR (len1 v)) 0) as [H0 | H0]; [discriminate H | ].
  injection H as <-.
  assert (Hn : (0 < INR (len1 v))%R).
  { destruct (len1 v) as [|k]; [cbn in H0; lra | apply lt_0_INR; lia]. }
  unfold Rdiv. apply Rmult_le_pos; [exact Ha | ]. left. now apply Rinv_0_lt_compat.
Qed.

(** X21. In every completed epoch the discriminator loss that is
    backpropagated and printed is, when it is a number, not negative: it is
    half the sum of two mean squared errors. *)
Theorem epoch_discriminator_loss_nonneg (W : Type) (env : Env W) (self : Model)
  (i : nat) (s s' : State W) :
  epoch env self i s = Ok (tt, s') ->
  exists x,
    log s' = log s ++ epoch_events i x
    /\ In (EvBackward D (v_loss_D x)) (epoch_events i x)
    /\ In (EvPrint i (v_loss_G x) (v_loss_D x)) (epoch_events i x)
    /\ forall d, v_loss_D x = Some d -> (0 <= d)%R.
Proof.
  intros H. apply epoch_segment in H. destruct H as (seg & Hlog & Hseg).
  destruct Hseg as (x & _ & _ & _ & _ & _ & _ & _ & -> & _ & _ & _ & _ & HD).
  exists x. split; [exact Hlog | ].
  split; [ | split].
  - unfold epoch_events, discriminator_update. rewrite !in_app_iff. cbn. tauto.
  - unfold epoch_events, logging. rewrite !in_app_iff. cbn. tauto.
  - intros d Hd. rewrite HD in Hd. unfold loss_D_spec in Hd.
    destruct (mean_squared_error (v_real_validity x) 1) as [a|] eqn:Ea;
      [ | discriminate Hd].
    destruct (mean_squared_error (v_fake_validity x) 0) as [b|] eqn:Eb;
      [ | discriminate Hd].
    apply mean_squared_error_nonneg in Ea, Eb.
    cbn in Hd. destruct (Req_dec_T 2 0); [discriminate Hd | ].
    injection Hd as <-. lra.
Qed.

Lemma example_epoch_runs :
  exists s', epoch example_env example_model 0 example_state = Ok (tt, s').
Proof.
  eexists.
  lazy -[Rplus Rminus Rmult Rdiv Ropp Rinv IZR INR PI Rtrigo_def.exp R_sqrt.sqrt ln pow
         Req_dec_T Rlt_dec].
  reflexivity.
Qed.

Lemma epoch_discriminator_loss_nonneg_witness :
  exists s' x,
    epoch example_env example_model 0 example_state = Ok (tt, s')
    /\ log s' = epoch_events 0 x
    /\ forall d, v_loss_D x = Some d -> (0 <= d)%R.
Proof.
  destruct example_epoch_runs as [s' E].
  destruct (epoch_discriminator_loss_nonneg example_env example_model 0 example_state E)
    as (x & Hlog & _ & _ & Hd).
  exists s', x. split; [exact E | ]. split; [exact Hlog | exact Hd].
Defined.
